(** * Half-life calculator: the decay aggregation of [src/src/App.tsx]

    A shallow embedding of the TypeScript program: the unit table
    [convertToMg], the aggregation [calculateActiveLevel], and the
    parts of the [App] component that hold the dose collection
    ([addDose], [removeDose], [clearAllDoses], [generateChartData]).

    Numbers.  A JavaScript [number] is modelled by the type [number]:
    the three special values NaN, +Infinity and -Infinity, and the
    finite values, which are taken to be exact real numbers.  The
    special values follow the IEEE 754 rules the language prescribes;
    finite arithmetic is exact, so rounding, overflow, underflow and
    the sign of zero are outside the model. *)

From Stdlib Require Import Reals Lra Lia ZArith List String Ascii Bool.
From Stdlib Require Import Permutation Sorted FinFun DecimalString.
Import ListNotations.

Open Scope R_scope.

(** ** JavaScript numbers *)

Inductive number : Type :=
| NaN
| NegInf
| Fin (x : R)
| PosInf.

Declare Scope js_scope.
Delimit Scope js_scope with js.

Module Num.

Definition isNaN (a : number) : bool :=
  match a with NaN => true | _ => false end.

Definition isFinite (a : number) : bool :=
  match a with Fin _ => true | _ => false end.

(** The sign of a real, as the case analysis of the infinite cases needs it. *)
Inductive sign : Type := Negative | Zero | Positive.

Definition sgn (x : R) : sign :=
  if Rlt_dec 0 x then Positive
  else if Rlt_dec x 0 then Negative
  else Zero.

Definition neg (a : number) : number :=
  match a with
  | NaN => NaN
  | NegInf => PosInf
  | Fin x => Fin (- x)
  | PosInf => NegInf
  end.

(** [a + b] *)
Definition add (a b : number) : number :=
  match a, b with
  | NaN, _ | _, NaN => NaN
  | PosInf, NegInf | NegInf, PosInf => NaN
  | PosInf, _ | _, PosInf => PosInf
  | NegInf, _ | _, NegInf => NegInf
  | Fin x, Fin y => Fin (x + y)
  end.

(** [a - b] *)
Definition sub (a b : number) : number :=
  match a, b with
  | NaN, _ | _, NaN => NaN
  | PosInf, PosInf | NegInf, NegInf => NaN
  | PosInf, _ | _, NegInf => PosInf
  | NegInf, _ | _, PosInf => NegInf
  | Fin x, Fin y => Fin (x - y)
  end.

(** An infinity of the sign of [s]; the product of an infinity and
    zero is NaN. *)
Definition inf_of (s : sign) : number :=
  match s with Positive => PosInf | Negative => NegInf | Zero => NaN end.

Definition flip (s : sign) : sign :=
  match s with Positive => Negative | Negative => Positive | Zero => Zero end.

(** [a * b] *)
Definition mul (a b : number) : number :=
  match a, b with
  | NaN, _ | _, NaN => NaN
  | PosInf, PosInf | NegInf, NegInf => PosInf
  | PosInf, NegInf | NegInf, PosInf => NegInf
  | PosInf, Fin x | Fin x, PosInf => inf_of (sgn x)
  | NegInf, Fin x | Fin x, NegInf => inf_of (flip (sgn x))
  | Fin x, Fin y => Fin (x * y)
  end.

(** [a / b].  A zero divisor is read as +0; the program never
    divides by zero (its divisors are the constants 1000, 3600000 and
    100, and a half-life that passed the guard). *)
Definition div (a b : number) : number :=
  match a, b with
  | NaN, _ | _, NaN => NaN
  | (PosInf | NegInf), (PosInf | NegInf) => NaN
  | PosInf, Fin y => if Rlt_dec y 0 then NegInf else PosInf
  | NegInf, Fin y => if Rlt_dec y 0 then PosInf else NegInf
  | Fin _, (PosInf | NegInf) => Fin 0
  | Fin x, Fin y =>
      if Req_dec_T y 0 then inf_of (sgn x) else Fin (x / y)
  end.

(** [a < b] *)
Definition ltb (a b : number) : bool :=
  match a, b with
  | NaN, _ | _, NaN => false
  | _, NegInf => false
  | NegInf, _ => true
  | PosInf, _ => false
  | Fin _, PosInf => true
  | Fin x, Fin y => if Rlt_dec x y then true else false
  end.

(** [a <= b] *)
Definition leb (a b : number) : bool :=
  match a, b with
  | NaN, _ | _, NaN => false
  | NegInf, _ => true
  | _, PosInf => true
  | _, NegInf => false
  | PosInf, _ => false
  | Fin x, Fin y => if Rle_dec x y then true else false
  end.

(** [a > b] is [b < a]. *)
Definition gtb (a b : number) : bool := ltb b a.

(** SameValueZero on numbers, the equality of [Set]: NaN equals NaN. *)
Definition eq_dec (a b : number) : {a = b} + {a <> b}.
Proof.
  destruct a as [| |x|], b as [| |y|];
    try (left; reflexivity); try (right; discriminate).
  destruct (Req_dec_T x y) as [E|E].
  - left; now subst.
  - right; intros H; now injection H.
Defined.

End Num.

Infix "[+]" := Num.add (at level 50, left associativity) : js_scope.
Infix "[-]" := Num.sub (at level 50, left associativity) : js_scope.
Infix "[*]" := Num.mul (at level 40, left associativity) : js_scope.
Infix "[/]" := Num.div (at level 40, left associativity) : js_scope.
Infix "[<]" := Num.ltb (at level 65, no associativity) : js_scope.
Infix "[<=]" := Num.leb (at level 65, no associativity) : js_scope.
Infix "[>]" := Num.gtb (at level 65, no associativity) : js_scope.

Open Scope js_scope.

Module Math.

(** Is the real [y] a whole number, and if so is it odd? *)
Definition is_integer (y : R) : bool :=
  if Req_dec_T y (IZR (Int_part y)) then true else false.

Definition is_odd_integer (y : R) : bool :=
  is_integer y && Z.odd (Int_part y).

(** [Math.pow(base, exponent)], the cases of Number::exponentiate in
    their order; the finite case is the exact power. *)
Definition pow (base exponent : number) : number :=
  match exponent with
  | NaN => NaN
  | Fin y =>
      if Req_dec_T y 0 then Fin 1
      else match base with
           | NaN => NaN
           | PosInf => if Rlt_dec 0 y then PosInf else Fin 0
           | NegInf =>
               if Rlt_dec 0 y
               then (if is_odd_integer y then NegInf else PosInf)
               else Fin 0
           | Fin b =>
               match Num.sgn b with
               | Num.Zero => if Rlt_dec 0 y then Fin 0 else PosInf
               | Num.Positive => Fin (Rpower b y)
               | Num.Negative =>
                   if is_integer y then Fin (powerRZ b (Int_part y)) else NaN
               end
           end
  | PosInf =>
      match base with
      | NaN => NaN
      | PosInf | NegInf => PosInf
      | Fin b =>
          if Rlt_dec 1 (Rabs b) then PosInf
          else if Req_dec_T (Rabs b) 1 then NaN
          else Fin 0
      end
  | NegInf =>
      match base with
      | NaN => NaN
      | PosInf | NegInf => Fin 0
      | Fin b =>
          if Rlt_dec 1 (Rabs b) then Fin 0
          else if Req_dec_T (Rabs b) 1 then NaN
          else PosInf
      end
  end.

(** [Math.min(a, b)]: NaN if either is NaN, else the smaller. *)
Definition min2 (a b : number) : number :=
  if Num.isNaN a || Num.isNaN b then NaN
  else if b [<] a then b else a.

(** [Math.min(...values)]; +Infinity for no argument. *)
Definition min (values : list number) : number :=
  fold_left min2 values PosInf.

End Math.

(** ** Dates

    A [Date] holds a time value: a whole number of milliseconds since
    the epoch, or NaN for an invalid date. *)

Record Date : Type := mkDate { getTime : number }.

(** Truncation toward zero. *)
Definition trunc (x : R) : R :=
  if Rle_dec 0 x then IZR (Int_part x) else - IZR (Int_part (- x)).

(** TimeClip: a time value out of range or not finite is NaN, any
    other is truncated to a whole millisecond. *)
Definition TimeClip (t : number) : number :=
  match t with
  | Fin x => if Rlt_dec 8.64e15 (Rabs x) then NaN else Fin (trunc x)
  | _ => NaN
  end.

(** [new Date(value)] for a number. *)
Definition new_Date (value : number) : Date := mkDate (TimeClip value).

(** ** Data model (App.tsx, lines 5-21) *)

Inductive Unit : Type := mg | ug | g | iu.

Record Dose : Type := mkDose {
  dose_id : string;       (* id *)
  amount : number;
  dose_unit : Unit;       (* unit *)
  timestamp : Date
}.

Record CalculatorConfig : Type := mkConfig {
  halfLifeHours : number;
  targetTime : option Date  (* optional: defaults to the current time *)
}.

(** ** Exceptions *)

Inductive result (A : Type) : Type :=
| Return (a : A)
| Throw (message : string).
Arguments Return {A} a.
Arguments Throw {A} message.

(** ** convertToMg (App.tsx, lines 26-34) *)

Definition convertToMg (amount : number) (unit : Unit) : number :=
  match unit with
  | g => amount [*] Fin 1000
  | mg => amount
  | ug => amount [/] Fin 1000
  | iu => amount
  end.

(** ** calculateActiveLevel (App.tsx, lines 42-74)

    [now] is the clock: what [new Date()] yields when the
    configuration gives no target time. *)

Definition msPerHour : number := Fin 1000 [*] Fin 60 [*] Fin 60.

(** The callback of [doses.reduce]. *)
Definition remaining (halfLifeHours targetTimeMs : number)
    (total : number) (dose : Dose) : number :=
  let doseTimeMs := getTime (timestamp dose) in
  let elapsedHours := (targetTimeMs [-] doseTimeMs) [/] msPerHour in
  if elapsedHours [<] Fin 0 then total
  else
    let amountInMg := convertToMg (amount dose) (dose_unit dose) in
    let remainingFromDose :=
      amountInMg [*] Math.pow (Fin 0.5) (elapsedHours [/] halfLifeHours) in
    total [+] remainingFromDose.

Definition calculateActiveLevel (now : Date) (doses : list Dose)
    (config : CalculatorConfig) : result number :=
  let halfLifeHours := halfLifeHours config in
  let targetTime :=
    match targetTime config with Some d => d | None => now end in
  if halfLifeHours [<=] Fin 0
  then Throw "Half-life must be a positive number."
  else
    let targetTimeMs := getTime targetTime in
    let totalRemaining :=
      fold_left (remaining halfLifeHours targetTimeMs) doses (Fin 0) in
    Return totalRemaining.

(** ** Host functions used by the component *)

(** *** parseFloat

    The longest prefix of the trimmed input that is a
    StrDecimalLiteral (an optional sign, then [Infinity] or decimal
    digits with an optional fraction and exponent), NaN when there is
    none.  White space is the ASCII white space. *)

Definition is_digit (c : ascii) : bool :=
  ((48 <=? nat_of_ascii c) && (nat_of_ascii c <=? 57))%nat.

Definition digit_value (c : ascii) : Z := Z.of_nat (nat_of_ascii c - 48).

Definition is_whitespace (c : ascii) : bool :=
  let n := nat_of_ascii c in
  ((9 <=? n) && (n <=? 13) || (n =? 32))%nat.

Fixpoint trim_start (s : string) : string :=
  match s with
  | String c s' => if is_whitespace c then trim_start s' else s
  | EmptyString => s
  end.

(** The longest run of digits at the head of [s]: the number they
    write after the digits already read ([acc]), how many there are,
    and what follows. *)
Fixpoint read_digits (s : string) (acc : Z) (count : nat) : Z * nat * string :=
  match s with
  | String c s' =>
      if is_digit c
      then read_digits s' (10 * acc + digit_value c)%Z (S count)
      else (acc, count, s)
  | EmptyString => (acc, count, s)
  end.

(** An optional sign: is it a minus, and what follows. *)
Definition read_sign (s : string) : bool * string :=
  match s with
  | String "-" s' => (true, s')
  | String "+" s' => (false, s')
  | _ => (false, s)
  end.

(** An optional ExponentPart: its value, 0 when there is none. *)
Definition read_exponent (s : string) : Z :=
  match s with
  | String c s' =>
      if (Ascii.eqb c "e" || Ascii.eqb c "E")%char
      then
        let '(negative, s'') := read_sign s' in
        let '(e, count, _) := read_digits s'' 0%Z 0%nat in
        if (count =? 0)%nat then 0%Z
        else if negative then (- e)%Z else e
      else 0%Z
  | EmptyString => 0%Z
  end.

Definition parseFloat (input : string) : number :=
  let '(negative, s) := read_sign (trim_start input) in
  let signed (a : number) := if negative then Num.neg a else a in
  if String.prefix "Infinity" s then signed PosInf
  else
    let '(whole, n1, s1) := read_digits s 0%Z 0%nat in
    let '(mantissa, n2, s2) :=
      match s1 with
      | String "." s1' => read_digits s1' whole 0%nat
      | _ => (whole, 0%nat, s1)
      end in
    if (n1 + n2 =? 0)%nat then NaN
    else
      signed (Fin (IZR mantissa * powerRZ 10 (read_exponent s2 - Z.of_nat n2))).

(** *** parseFloat(x.toFixed(2))

    [toFixed(2)] writes the integer [n] for which [n / 100] is
    closest to the magnitude of [x] (the larger of two), with the sign
    of [x]; at [1e21] and above, and for a value that is not finite,
    it writes [x] as [String(x)] does.  [parseFloat] reads the number
    back. *)
Definition roundTo2 (x : number) : number :=
  match x with
  | Fin r =>
      if Rle_dec 1e21 (Rabs r) then Fin r
      else
        let n := Int_part (Rabs r * 100 + / 2) in
        if Rlt_dec r 0 then Fin (- (IZR n / 100)) else Fin (IZR n / 100)
  | _ => x
  end.

(** *** Array.prototype.sort

    The sort is stable, and [compareFn a b > 0] puts [a] after [b]
    (a NaN from [compareFn] counts as 0).  For a consistent comparator
    that fixes the result; it is computed here by insertion.  (With an
    inconsistent comparator, as NaN keys make it, the language leaves
    the order to the implementation.) *)
Fixpoint insert_sorted {A : Type} (compareFn : A -> A -> number)
    (x : A) (l : list A) : list A :=
  match l with
  | [] => [x]
  | y :: l' =>
      if compareFn x y [>] Fin 0
      then y :: insert_sorted compareFn x l'
      else x :: l
  end.

Definition Array_sort {A : Type} (compareFn : A -> A -> number)
    (l : list A) : list A :=
  fold_right (insert_sorted compareFn) [] l.

(** *** Set of numbers

    The elements in the order they were first added. *)
Definition Set_add (x : number) (s : list number) : list number :=
  if in_dec Num.eq_dec x s then s else s ++ [x].

(** The number a loop counter holds. *)
Definition number_of_nat (i : nat) : number := Fin (IZR (Z.of_nat i)).

(** Sequencing of computations that may throw. *)
Definition bind {A B : Type} (m : result A) (k : A -> result B) : result B :=
  match m with
  | Return a => k a
  | Throw message => Throw message
  end.

(** [l.map(f)] for a callback that may throw: the first exception ends it. *)
Fixpoint Array_map {A B : Type} (f : A -> result B) (l : list A)
    : result (list B) :=
  match l with
  | [] => Return []
  | x :: l' =>
      bind (f x) (fun y => bind (Array_map f l') (fun ys => Return (y :: ys)))
  end.

(** ** The App component (App.tsx, lines 76-194) *)

Module App.

(** A point of the chart. *)
Record ChartPoint : Type := mkPoint {
  time : string;           (* the instant as the locale displays it *)
  point_timestamp : number; (* timestamp *)
  level : number
}.

(** The component's state, and the alerts it has shown. *)
Record State : Type := mkState {
  doses : list Dose;
  halfLifeHours : number;
  newDoseAmount : string;
  newDoseUnit : Unit;
  newDoseTime : string;
  alerts : list string
}.

Section Host.

(** [new Date(text)]: the local date-time [text] as a date. *)
Variable Date_parse : string -> Date.
(** [date.toLocaleString()] *)
Variable toLocaleString : Date -> string.
(** [date.toISOString()] *)
Variable toISOString : Date -> string.
(** [n.toString()] *)
Variable Number_toString : number -> string.

(** The comparator of the dose collection: by time of the dose. *)
Definition byTimestamp (a b : Dose) : number :=
  getTime (timestamp a) [-] getTime (timestamp b).

(** [addDose], run at the instant [now] of the clock. *)
Definition addDose (now : number) (st : State) : State :=
  let amount := parseFloat (newDoseAmount st) in
  if Num.isNaN amount || (amount [<=] Fin 0)
  then
    mkState (doses st) (halfLifeHours st) (newDoseAmount st)
      (newDoseUnit st) (newDoseTime st)
      (alerts st ++ ["Please enter a valid amount"%string])
  else
    let newDose :=
      mkDose (Number_toString now) amount (newDoseUnit st)
        (Date_parse (newDoseTime st)) in
    mkState (Array_sort byTimestamp (doses st ++ [newDose]))
      (halfLifeHours st) EmptyString
      (newDoseUnit st)
      (String.substring 0 16 (toISOString (mkDate now)))
      (alerts st).

Definition removeDose (id : string) (st : State) : State :=
  mkState
    (filter (fun dose => negb (String.eqb (dose_id dose) id)) (doses st))
    (halfLifeHours st) (newDoseAmount st) (newDoseUnit st)
    (newDoseTime st) (alerts st).

(** [confirmed] is the answer to [window.confirm]. *)
Definition clearAllDoses (confirmed : bool) (st : State) : State :=
  if confirmed
  then mkState [] (halfLifeHours st) (newDoseAmount st) (newDoseUnit st)
         (newDoseTime st) (alerts st)
  else st.

(** The level the component displays. *)
Definition currentLevel (now : number) (st : State) : result number :=
  match doses st with
  | [] => Return (Fin 0)
  | _ => calculateActiveLevel (mkDate now) (doses st)
           (mkConfig (halfLifeHours st) None)
  end.

Definition numPoints : nat := 100.

Definition generateChartData (now : number) (st : State)
    : result (list ChartPoint) :=
  match doses st with
  | [] => Return []
  | _ =>
      let oldestDose :=
        Math.min (map (fun d => getTime (timestamp d)) (doses st)) in
      let startTime := Math.min [oldestDose; now] in
      let futureHours := halfLifeHours st [*] Fin 5 in
      let endTime := now [+] futureHours [*] Fin 60 [*] Fin 60 [*] Fin 1000 in
      let importantTimes :=
        fold_left (fun s dose => Set_add (getTime (timestamp dose)) s)
          (doses st) [] in
      let timeStep := (endTime [-] startTime) [/] number_of_nat numPoints in
      let importantTimes :=
        fold_left
          (fun s i => Set_add (startTime [+] number_of_nat i [*] timeStep) s)
          (seq 0 (S numPoints)) importantTimes in
      let sortedTimes := Array_sort (fun a b => a [-] b) importantTimes in
      Array_map
        (fun time =>
           bind
             (calculateActiveLevel (mkDate now) (doses st)
                (mkConfig (halfLifeHours st) (Some (new_Date time))))
             (fun level =>
                Return (mkPoint (toLocaleString (new_Date time)) time
                          (roundTo2 level))))
        sortedTimes
  end.

End Host.

End App.

(** ** The rest of the component

    The state the component starts in, the handlers of its form
    fields, and the events a user can raise. *)

(** [a || b] on numbers: NaN and zero are falsy. *)
Definition truthy (a : number) : bool :=
  match a with
  | NaN => false
  | Fin x => if Req_dec_T x 0 then false else true
  | _ => true
  end.

Definition or_else (a b : number) : number := if truthy a then a else b.

(** [String(index)] for an array index. *)
Definition string_of_index (index : nat) : string :=
  NilZero.string_of_uint (Nat.to_uint index).

(** [l.map((x, index) => ...)] *)
Fixpoint Array_mapi_from {A B : Type} (index : nat) (f : A -> nat -> B)
    (l : list A) : list B :=
  match l with
  | [] => []
  | x :: l' => f x index :: Array_mapi_from (S index) f l'
  end.

Definition Array_mapi {A B : Type} (f : A -> nat -> B) (l : list A) : list B :=
  Array_mapi_from 0 f l.

(** [defaultDoses] (App.tsx, lines 79-97): days ago and amount. *)
Definition defaultDoses : list (number * number) :=
  [ (Fin 16, Fin 93.75); (Fin 15, Fin 93.75); (Fin 14, Fin 93.75);
    (Fin 13, Fin 93.75); (Fin 12, Fin 0); (Fin 11, Fin 93.75);
    (Fin 10, Fin 125); (Fin 9, Fin 0); (Fin 8, Fin 125); (Fin 7, Fin 125);
    (Fin 6, Fin 125); (Fin 5, Fin 125); (Fin 4, Fin 0); (Fin 3, Fin 0);
    (Fin 2, Fin 125); (Fin 1, Fin 93.75); (Fin 0, Fin 125) ].

(** The dose a default entry becomes, [index] being its place among
    the entries kept. *)
Definition defaultDose (now : Date) (d : number * number) (index : nat)
    : Dose :=
  let '(daysAgo, amount) := d in
  mkDose ("default-" ++ string_of_index index) amount ug
    (new_Date
       (getTime now [-] daysAgo [*] Fin 24 [*] Fin 60 [*] Fin 60 [*] Fin 1000)).

(** The initial dose collection (App.tsx, lines 77-107), the
    component being mounted at the instant [now]. *)
Definition initialDoses (now : Date) : list Dose :=
  Array_mapi (defaultDose now)
    (filter (fun d => snd d [>] Fin 0) defaultDoses).

(** The initial state (App.tsx, lines 77-114); its clock reads are
    taken at the one instant [now]. *)
Definition initialState (toISOString : Date -> string) (now : Date)
    : App.State :=
  App.mkState (initialDoses now) (Fin 200) EmptyString mg
    (String.substring 0 16 (toISOString now)) [].

(** The handler of the half-life field (App.tsx, line 249):
    [setHalfLifeHours(parseFloat(e.target.value) || 0)]. *)
Definition changeHalfLife (value : string) (st : App.State) : App.State :=
  App.mkState (App.doses st) (or_else (parseFloat value) (Fin 0))
    (App.newDoseAmount st) (App.newDoseUnit st) (App.newDoseTime st)
    (App.alerts st).

(** The handlers of the fields of the new dose (App.tsx, lines 267,
    277 and 291). *)
Definition changeAmount (value : string) (st : App.State) : App.State :=
  App.mkState (App.doses st) (App.halfLifeHours st) value
    (App.newDoseUnit st) (App.newDoseTime st) (App.alerts st).

Definition changeUnit (value : Unit) (st : App.State) : App.State :=
  App.mkState (App.doses st) (App.halfLifeHours st) (App.newDoseAmount st)
    value (App.newDoseTime st) (App.alerts st).

Definition changeTime (value : string) (st : App.State) : App.State :=
  App.mkState (App.doses st) (App.halfLifeHours st) (App.newDoseAmount st)
    (App.newDoseUnit st) value (App.alerts st).

(** What a user can do, with what the clock or the confirm dialog
    answers at that moment. *)
Inductive Event : Type :=
| ChangeHalfLife (value : string)
| ChangeAmount (value : string)
| ChangeUnit (value : Unit)
| ChangeTime (value : string)
| AddDose (now : number)
| RemoveDose (id : string)
| ClearAllDoses (confirmed : bool).

Definition handle (Date_parse : string -> Date)
    (toISOString : Date -> string) (Number_toString : number -> string)
    (st : App.State) (event : Event) : App.State :=
  match event with
  | ChangeHalfLife value => changeHalfLife value st
  | ChangeAmount value => changeAmount value st
  | ChangeUnit value => changeUnit value st
  | ChangeTime value => changeTime value st
  | AddDose now => App.addDose Date_parse toISOString Number_toString now st
  | RemoveDose id => App.removeDose id st
  | ClearAllDoses confirmed => App.clearAllDoses confirmed st
  end.

(** The state after a run of events from the initial state.  (A
    render that throws ends the component, so the states after it are
    not reached; what holds of every run holds of the states that
    are.) *)
Definition run (Date_parse : string -> Date)
    (toISOString : Date -> string) (Number_toString : number -> string)
    (mounted : Date) (events : list Event) : App.State :=
  fold_left (handle Date_parse toISOString Number_toString) events
    (initialState toISOString mounted).

(** * Notions used in the statements *)

(** ** The fold of [calculateActiveLevel] *)

(** The evaluation instant of a configuration. *)
Definition instant (now : Date) (config : CalculatorConfig) : Date :=
  match targetTime config with Some d => d | None => now end.

(** Hours elapsed between two time values, as [calculateActiveLevel]
    computes them. *)
Definition elapsed (targetTimeMs doseTimeMs : number) : number :=
  (targetTimeMs [-] doseTimeMs) [/] msPerHour.

(** What one dose contributes at a target time. *)
Definition contribution (h targetTimeMs : number) (dose : Dose) : number :=
  remaining h targetTimeMs (Fin 0) dose.

(** ** Finite numbers and valid dates *)

(** The real a finite number is (0 for the others, which the
    statements exclude where it matters). *)
Definition real_of (a : number) : R :=
  match a with Fin x => x | _ => 0 end.

Definition finite (a : number) : Prop := Num.isFinite a = true.

(** A dose with a finite amount and a valid date. *)
Definition finite_dose (dose : Dose) : Prop :=
  Num.isFinite (amount dose) = true
  /\ Num.isFinite (getTime (timestamp dose)) = true.

(** A dose whose date is valid: its time value is not NaN. *)
Definition valid_date (dose : Dose) : Prop :=
  Num.isFinite (getTime (timestamp dose)) = true.

(** The time of a dose in milliseconds, for a valid date. *)
Definition time_of (dose : Dose) : R := real_of (getTime (timestamp dose)).

(** ** The decay law on real numbers

    For doses with finite amounts and valid dates the fold of
    [calculateActiveLevel] is the sum [level_sum] of [decayed]: the
    amount in mg times 0.5 to the power elapsed hours over half-life. *)

(** How many mg one unit is. *)
Definition mg_per (u : Unit) : R :=
  match u with g => 1000 | mg => 1 | ug => / 1000 | iu => 1 end.

(** The factor left after [e] hours at half-life [h]; a half-life of
    +Infinity never decays. *)
Definition decay (h : number) (e : R) : R :=
  match h with Fin h' => Rpower 0.5 (e / h') | _ => 1 end.

(** What is left of a dose at the time [t]: nothing before the dose
    is taken, then the amount in mg times the decay factor. *)
Definition decayed (h : number) (t : R) (dose : Dose) : R :=
  let ts := real_of (getTime (timestamp dose)) in
  if Rlt_dec t ts then 0
  else real_of (amount dose) * mg_per (dose_unit dose)
       * decay h ((t - ts) / 3600000).

(** The sum of what is left of every dose. *)
Definition level_sum (h : number) (t : R) (doses : list Dose) : R :=
  fold_right (fun dose acc => decayed h t dose + acc) 0 doses.

(** ** The chart *)

(** Order by a real key. *)
Definition key_le {A : Type} (key : A -> R) (a b : A) : Prop :=
  key a <= key b.

(** The earliest of the dose times and [n], the end of the chart five
    half-lives after [n], and the later of that end and the dose
    times. *)
Definition chart_start (n : R) (doses : list Dose) : R :=
  fold_right Rmin n (map time_of doses).

Definition chart_end (n h : R) : R := n + h * 5 * 60 * 60 * 1000.

Definition chart_last (n h : R) (doses : list Dose) : R :=
  fold_right Rmax (chart_end n h) (map time_of doses).

Definition chart_step (n h : R) (doses : list Dose) : R :=
  (chart_end n h - chart_start n doses) / 100.

(** The grid: point [i] of the 101 points that cut the span from
    the start to the end into 100 equal steps. *)
Definition grid_point (n h : R) (doses : list Dose) (i : nat) : R :=
  chart_start n doses + IZR (Z.of_nat i) * chart_step n h doses.

(** The sorted instants of [generateChartData], once its start, end
    and step are known to be these reals. *)
Definition chart_instants (n h : R) (doses : list Dose) : list number :=
  Array_sort (fun a b => a [-] b)
    (fold_left (fun s i => Set_add (Fin (grid_point n h doses i)) s)
       (seq 0 (S App.numPoints))
       (fold_left (fun s dose => Set_add (getTime (timestamp dose)) s)
          doses [])).

(** The record [generateChartData] makes of an instant. *)
Definition chart_point (toLocaleString : Date -> string) (h : number)
    (doses : list Dose) (time : number) : App.ChartPoint :=
  App.mkPoint (toLocaleString (new_Date time)) time
    (roundTo2
       (fold_left (remaining h (getTime (new_Date time))) doses (Fin 0))).

(** ** Sample inputs *)

Definition sample_doses : list Dose :=
  [mkDose "a" (Fin 100) mg (mkDate (Fin 0));
   mkDose "b" (Fin 100) mg (mkDate (Fin 86400000))].

Definition sample_state : App.State :=
  App.mkState [mkDose "a" (Fin 10) mg (mkDate (Fin 10))] (Fin 24)
    "Infinity" mg "1970-01-01T00:00" [].

Definition empty_amount_state : App.State :=
  App.mkState sample_doses (Fin 24) EmptyString mg "1970-01-01T00:00" [].

Definition valid_amount_state : App.State :=
  App.mkState sample_doses (Fin 24) "12.5" mg "1970-01-01T00:00" [].

Definition chart_sample : App.State :=
  App.mkState [mkDose "a" (Fin 100) mg (mkDate (Fin 20000000))] (Fin 1)
    EmptyString mg EmptyString [].

(** A host for the samples: its time zone puts the submitted time
    at 5 ms, and it prints every date and number alike. *)
Definition sample_Date_parse (text : string) : Date := mkDate (Fin 5).

Definition sample_toISOString (date : Date) : string :=
  "1970-01-01T00:00:00.000Z".

Definition sample_Number_toString (n : number) : string := "0".

Definition sample_toLocaleString (date : Date) : string := "1/1/1970".

(** ** Notions for the further properties *)

(** The amount of a dose in mg, for a finite amount. *)
Definition mg_of (dose : Dose) : R :=
  real_of (amount dose) * mg_per (dose_unit dose).

(** All that was ever taken, in mg. *)
Definition total_mg (doses : list Dose) : R :=
  fold_right (fun dose acc => mg_of dose + acc) 0 doses.

(** The same doses with every amount multiplied by [c]. *)
Definition scale_doses (c : number) (doses : list Dose) : list Dose :=
  map (fun dose =>
         mkDose (dose_id dose) (amount dose [*] c) (dose_unit dose)
           (timestamp dose))
    doses.

(** The dose [addDose] makes of the form. *)
Definition newDose (Date_parse : string -> Date)
    (Number_toString : number -> string) (now : number) (st : App.State)
    : Dose :=
  mkDose (Number_toString now) (parseFloat (App.newDoseAmount st))
    (App.newDoseUnit st) (Date_parse (App.newDoseTime st)).

Definition accepted (st : App.State) : Prop :=
  Num.isNaN (parseFloat (App.newDoseAmount st))
  || (parseFloat (App.newDoseAmount st) [<=] Fin 0) = false.

Definition invalid_Date_parse (text : string) : Date := mkDate NaN.

(** The doses that carry an id. *)
Definition with_id (id : string) (doses : list Dose) : list Dose :=
  filter (fun dose => String.eqb (dose_id dose) id) doses.

Definition positive_amount (dose : Dose) : Prop :=
  Fin 0 [<] amount dose = true.

(** A default entry of at most 16 days ago. *)
Definition recent (d : number * number) : Prop :=
  exists x : R, fst d = Fin x /\ 0 <= x <= 16.

(** The first entry is at least as many days ago as the second. *)
Definition earlier (a b : number * number) : Prop :=
  exists x y : R,
    fst a = Fin x /\ fst b = Fin y /\ y <= x /\ 0 <= y /\ x <= 16.

(** The instants at which the component can be mounted with all its
    default doses at valid dates. *)
Definition mountable (n : R) : Prop :=
  - 8.64e15 + 16 * 86400000 <= n <= 8.64e15.

(** The collection is in order of time and holds valid dates only. *)
Definition in_time_order (doses : list Dose) : Prop :=
  Forall valid_date doses /\ StronglySorted (key_le time_of) doses.

Definition sample_events : list Event :=
  [ChangeAmount "12.5"; ChangeTime "1970-01-01T00:00"; AddDose (Fin 0);
   RemoveDose "default-3"; ChangeHalfLife "24"; ClearAllDoses false].

(** ** Tactics *)

Ltac decide_reals :=
  repeat match goal with
    | |- context [Rlt_dec ?a ?b] => destruct (Rlt_dec a b)
    | |- context [Rle_dec ?a ?b] => destruct (Rle_dec a b)
    | |- context [Req_dec_T ?a ?b] => destruct (Req_dec_T a b)
    | H : context [Rlt_dec ?a ?b] |- _ => destruct (Rlt_dec a b)
    | H : context [Rle_dec ?a ?b] |- _ => destruct (Rle_dec a b)
    | H : context [Req_dec_T ?a ?b] |- _ => destruct (Req_dec_T a b)
    end.

Ltac num_crush :=
  simpl in *; unfold Num.sgn in *; decide_reals; simpl in *;
  try discriminate; try reflexivity; try lra;
  try (f_equal; lra).

Ltac each_of_list tac :=
  repeat (apply Forall_cons; [tac|]); apply Forall_nil.

(** * Lemmas *)

(** ** Arithmetic of [number] *)

Lemma add_0_l (a : number) : Fin 0 [+] a = a.
Proof. destruct a; num_crush. Qed.

Lemma add_0_r (a : number) : a [+] Fin 0 = a.
Proof. destruct a; num_crush. Qed.

Lemma add_comm (a b : number) : a [+] b = b [+] a.
Proof. destruct a, b; num_crush. Qed.

Lemma add_assoc (a b c : number) : a [+] (b [+] c) = a [+] b [+] c.
Proof. destruct a, b, c; num_crush. Qed.

Lemma mul_1_r (a : number) : a [*] Fin 1 = a.
Proof. destruct a; num_crush. Qed.

Lemma div_Fin (x y : R) : y <> 0 -> Fin x [/] Fin y = Fin (x / y).
Proof. intros Hy; num_crush. Qed.

Lemma ltb_Fin (x y : R) : Fin x [<] Fin y = true <-> x < y.
Proof. split; intros H; num_crush. Qed.

Lemma leb_Fin (x y : R) : Fin x [<=] Fin y = true <-> x <= y.
Proof. split; intros H; num_crush. Qed.

Lemma ltb_Fin_false (x y : R) : Fin x [<] Fin y = false <-> y <= x.
Proof. split; intros H; num_crush. Qed.

Lemma leb_Fin_false (x y : R) : Fin x [<=] Fin y = false <-> y < x.
Proof. split; intros H; num_crush. Qed.

(** [a <= 0] and [0 < a] exclude each other; NaN satisfies neither. *)
Lemma ltb_0_leb (a : number) : Fin 0 [<] a = true -> a [<=] Fin 0 = false.
Proof. destruct a; num_crush. Qed.

Lemma gtb_sub_Fin (x y : R) : Fin x [-] Fin y [>] Fin 0 = true <-> y < x.
Proof.
  unfold Num.gtb. simpl Num.sub. rewrite ltb_Fin. split; intros; lra.
Qed.

Lemma msPerHour_eq : msPerHour = Fin 3600000.
Proof. unfold msPerHour; num_crush. Qed.

Lemma isFinite_Fin (a : number) :
  Num.isFinite a = true -> a = Fin (real_of a).
Proof. destruct a; simpl; intros H; try discriminate H; reflexivity. Qed.

Lemma real_of_inj (a b : number) :
  finite a -> finite b -> real_of a = real_of b -> a = b.
Proof.
  intros Ha Hb E. rewrite (isFinite_Fin _ Ha), (isFinite_Fin _ Hb).
  now rewrite E.
Qed.

Lemma sub_key (a b : number) :
  finite a -> finite b ->
  (a [-] b [>] Fin 0 = true <-> real_of b < real_of a).
Proof.
  intros Ha Hb. rewrite (isFinite_Fin _ Ha), (isFinite_Fin _ Hb).
  apply gtb_sub_Fin.
Qed.

Lemma min2_Fin (x y : R) : Math.min2 (Fin x) (Fin y) = Fin (Rmin x y).
Proof.
  unfold Math.min2, Rmin. simpl.
  destruct (Rlt_dec y x), (Rle_dec x y); try reflexivity; f_equal; lra.
Qed.

Lemma fold_min2_Fin (l : list R) (a : R) :
  fold_left Math.min2 (map Fin l) (Fin a) = Fin (fold_left Rmin l a).
Proof.
  revert a. induction l as [|x l IH]; intros a; simpl; [reflexivity|].
  rewrite <- IH. f_equal. apply min2_Fin.
Qed.

Lemma Math_min_Fin (x : R) (l : list R) :
  Math.min (map Fin (x :: l)) = Fin (fold_left Rmin l x).
Proof. unfold Math.min. simpl. apply fold_min2_Fin. Qed.

(** ** [Math.pow] at base 0.5 *)

Lemma Rpower_half_1 : Rpower 0.5 1 = 0.5.
Proof. apply Rpower_1. lra. Qed.

Lemma sgn_half : Num.sgn 0.5 = Num.Positive.
Proof. unfold Num.sgn. destruct (Rlt_dec 0 0.5); [reflexivity | lra]. Qed.

(** [Math.pow(0.5, y)] for a finite [y] is the exact power. *)
Lemma pow_half_Fin (y : R) : Math.pow (Fin 0.5) (Fin y) = Fin (Rpower 0.5 y).
Proof.
  unfold Math.pow. rewrite sgn_half.
  destruct (Req_dec_T y 0) as [->|_]; [|reflexivity].
  rewrite Rpower_O by lra. reflexivity.
Qed.

(** With no time elapsed the decay factor is 1, whatever the half-life. *)
Lemma factor_at_zero (h : number) :
  Fin 0 [<] h = true -> Math.pow (Fin 0.5) (Fin 0 [/] h) = Fin 1.
Proof.
  destruct h as [| |h|]; intros H; try discriminate H.
  - apply ltb_Fin in H. rewrite div_Fin by lra. rewrite pow_half_Fin.
    f_equal. unfold Rdiv. rewrite Rmult_0_l. apply Rpower_O. lra.
  - simpl. destruct (Req_dec_T 0 0); [reflexivity | contradiction].
Qed.

Lemma pow_decay (h : number) (e : R) :
  Fin 0 [<] h = true -> Math.pow (Fin 0.5) (Fin e [/] h) = Fin (decay h e).
Proof.
  destruct h as [| |h|]; intros H; try discriminate H.
  - apply ltb_Fin in H. rewrite div_Fin by lra. apply pow_half_Fin.
  - simpl. destruct (Req_dec_T 0 0); [reflexivity | contradiction].
Qed.

Lemma ln_half_neg : ln 0.5 < 0.
Proof. rewrite <- ln_1. apply ln_increasing; lra. Qed.

Lemma Rpower_half_antitone (x y : R) :
  x <= y -> Rpower 0.5 y <= Rpower 0.5 x.
Proof.
  intros H. unfold Rpower.
  pose proof ln_half_neg as Hln.
  destruct (Req_dec_T (y * ln 0.5) (x * ln 0.5)) as [->|Hne]; [lra|].
  left. apply exp_increasing. nra.
Qed.

Lemma decay_pos (h : number) (e : R) : 0 < decay h e.
Proof. destruct h; simpl; try lra. unfold Rpower. apply exp_pos. Qed.

Lemma decay_antitone (h : number) (e1 e2 : R) :
  Fin 0 [<] h = true -> e1 <= e2 -> decay h e2 <= decay h e1.
Proof.
  destruct h as [| |h|]; intros Hh He; simpl; try lra.
  apply ltb_Fin in Hh. apply Rpower_half_antitone.
  assert (0 < / h) by (apply Rinv_0_lt_compat; lra).
  unfold Rdiv. nra.
Qed.

(** ** Host functions *)

(** What [parseFloat] makes of some inputs of the amount field. *)
Lemma parseFloat_examples :
  parseFloat "" = NaN
  /\ parseFloat "abc" = NaN
  /\ parseFloat "0" = Fin 0
  /\ parseFloat "-5" = Fin (- 5)
  /\ parseFloat " 12.5mg" = Fin 12.5
  /\ parseFloat "1e3" = Fin 1000
  /\ parseFloat "Infinity" = PosInf
  /\ parseFloat "-Infinity" = NegInf.
Proof.
  repeat split; try reflexivity;
    cbv -[IZR powerRZ Rmult Ropp]; f_equal; simpl; lra.
Qed.

(** What [parseFloat(x.toFixed(2))] is for a finite [x] below 1e21:
    a whole number of hundredths, at most half a hundredth from [x]. *)
Lemma roundTo2_spec (x : R) :
  Rabs x < 1e21 ->
  exists k : Z,
    roundTo2 (Fin x) = Fin (IZR k / 100) /\ Rabs (IZR k / 100 - x) <= / 200.
Proof.
  intros Hx. unfold roundTo2.
  destruct (Rle_dec 1e21 (Rabs x)) as [C|_]; [lra|].
  set (k := Int_part (Rabs x * 100 + / 2)).
  destruct (base_Int_part (Rabs x * 100 + / 2)) as [Hlo Hhi]. fold k in Hlo, Hhi.
  destruct (Rlt_dec x 0) as [Hneg|Hpos].
  - exists (- k)%Z. rewrite opp_IZR. split; [f_equal; lra|].
    rewrite Rabs_left in Hlo, Hhi by exact Hneg.
    apply Rabs_le. lra.
  - exists k. split; [reflexivity|].
    rewrite Rabs_right in Hlo, Hhi by lra.
    apply Rabs_le. lra.
Qed.


(** ** The fold of [calculateActiveLevel] *)

Lemma elapsed_Fin (t d : R) : elapsed (Fin t) (Fin d) = Fin ((t - d) / 3600000).
Proof.
  unfold elapsed. rewrite msPerHour_eq. simpl Num.sub.
  apply div_Fin. lra.
Qed.

Lemma elapsed_neg_iff (t ts : R) : (t - ts) / 3600000 < 0 <-> t < ts.
Proof.
  assert (0 < / 3600000) by (apply Rinv_0_lt_compat; lra).
  unfold Rdiv. split; intros; nra.
Qed.

(** A target strictly before the dose gives a negative elapsed time. *)
Lemma elapsed_future (t d : number) :
  t [<] d = true -> elapsed t d [<] Fin 0 = true.
Proof.
  unfold elapsed. rewrite msPerHour_eq.
  destruct t as [| |t|], d as [| |d|]; intros H;
    try discriminate H; cbn [Num.sub];
    try (simpl; destruct (Rlt_dec 3600000 0); [lra | reflexivity]).
  apply ltb_Fin in H. rewrite div_Fin by lra. apply ltb_Fin.
  assert (0 < / 3600000) by (apply Rinv_0_lt_compat; lra).
  unfold Rdiv. nra.
Qed.

Lemma remaining_contribution (h t total : number) (d : Dose) :
  remaining h t total d = total [+] contribution h t d.
Proof.
  unfold contribution, remaining.
  destruct (_ [<] Fin 0).
  - now rewrite add_0_r.
  - now rewrite add_0_l.
Qed.

Lemma fold_remaining (h t : number) (doses : list Dose) (total : number) :
  fold_left (remaining h t) doses total
  = total [+] fold_left (remaining h t) doses (Fin 0).
Proof.
  revert total. induction doses as [|d doses IH]; intros total; simpl.
  - now rewrite add_0_r.
  - rewrite IH. rewrite (IH (remaining h t (Fin 0) d)).
    rewrite (remaining_contribution h t total).
    fold (contribution h t d). now rewrite add_assoc.
Qed.

Lemma fold_remaining_app (h t : number) (d1 d2 : list Dose) :
  fold_left (remaining h t) (d1 ++ d2) (Fin 0)
  = fold_left (remaining h t) d1 (Fin 0)
    [+] fold_left (remaining h t) d2 (Fin 0).
Proof. rewrite fold_left_app. apply fold_remaining. Qed.

Lemma fold_remaining_cons (h t : number) (d : Dose) (doses : list Dose) :
  fold_left (remaining h t) (d :: doses) (Fin 0)
  = contribution h t d [+] fold_left (remaining h t) doses (Fin 0).
Proof. simpl. rewrite fold_remaining. reflexivity. Qed.

Lemma fold_remaining_perm (h t : number) (d d' : list Dose) :
  Permutation d d' ->
  fold_left (remaining h t) d (Fin 0) = fold_left (remaining h t) d' (Fin 0).
Proof.
  induction 1 as [|x l l' _ IH|x y l|l l' l'' _ IH1 _ IH2].
  - reflexivity.
  - now rewrite !fold_remaining_cons, IH.
  - rewrite !fold_remaining_cons, !add_assoc.
    now rewrite (add_comm (contribution h t y)).
  - now rewrite IH1.
Qed.

Lemma contribution_future (h t : number) (d : Dose) :
  t [<] getTime (timestamp d) = true -> contribution h t d = Fin 0.
Proof.
  intros H. unfold contribution, remaining.
  fold (elapsed t (getTime (timestamp d))).
  now rewrite (elapsed_future _ _ H).
Qed.

Lemma calculateActiveLevel_valid (now : Date) (doses : list Dose)
    (config : CalculatorConfig) :
  halfLifeHours config [<=] Fin 0 = false ->
  calculateActiveLevel now doses config
  = Return (fold_left
              (remaining (halfLifeHours config) (getTime (instant now config)))
              doses (Fin 0)).
Proof. intros H. unfold calculateActiveLevel. now rewrite H. Qed.

(** ** The level as a sum of real numbers *)

Lemma convertToMg_Fin (x : R) (u : Unit) :
  convertToMg (Fin x) u = Fin (x * mg_per u).
Proof.
  destruct u; simpl mg_per; unfold convertToMg.
  - f_equal. lra.
  - rewrite div_Fin by lra. reflexivity.
  - reflexivity.
  - f_equal. lra.
Qed.

Lemma mg_per_pos (u : Unit) : 0 < mg_per u.
Proof.
  destruct u; simpl; lra.
Qed.

Lemma contribution_Fin (h : number) (t : R) (dose : Dose) :
  Fin 0 [<] h = true -> finite_dose dose ->
  contribution h (Fin t) dose = Fin (decayed h t dose).
Proof.
  intros Hh [Ha Hts]. unfold contribution, remaining, decayed.
  rewrite (isFinite_Fin _ Ha), (isFinite_Fin _ Hts). simpl real_of.
  set (a := real_of (amount dose)). set (ts := real_of (getTime _)).
  fold (elapsed (Fin t) (Fin ts)). rewrite elapsed_Fin.
  destruct (Rlt_dec t ts) as [Hlt|Hge].
  - replace (Fin ((t - ts) / 3600000) [<] Fin 0) with true; [reflexivity|].
    symmetry. apply ltb_Fin, elapsed_neg_iff, Hlt.
  - replace (Fin ((t - ts) / 3600000) [<] Fin 0) with false.
    + rewrite (pow_decay _ _ Hh), convertToMg_Fin. simpl. f_equal. lra.
    + symmetry. apply ltb_Fin_false. apply Rnot_lt_le. intros C.
      apply Hge, elapsed_neg_iff, C.
Qed.

Lemma level_Fin (h : number) (t : R) (doses : list Dose) :
  Fin 0 [<] h = true -> Forall finite_dose doses ->
  fold_left (remaining h (Fin t)) doses (Fin 0) = Fin (level_sum h t doses).
Proof.
  intros Hh Hf. induction Hf as [|dose doses Hd _ IH].
  - reflexivity.
  - rewrite fold_remaining_cons, IH, (contribution_Fin _ _ _ Hh Hd).
    reflexivity.
Qed.

Lemma decayed_nonneg (h : number) (t : R) (dose : Dose) :
  0 <= real_of (amount dose) -> 0 <= decayed h t dose.
Proof.
  intros Ha. unfold decayed. destruct (Rlt_dec _ _); [lra|].
  pose proof (decay_pos h ((t - real_of (getTime (timestamp dose))) / 3600000)).
  pose proof (mg_per_pos (dose_unit dose)).
  apply Rmult_le_pos; [apply Rmult_le_pos|]; lra.
Qed.

(** Between two instants with no dose in between, a dose's remainder
    does not grow. *)
Lemma decayed_antitone (h : number) (t1 t2 : R) (dose : Dose) :
  Fin 0 [<] h = true -> t1 <= t2 ->
  0 <= real_of (amount dose) ->
  (real_of (getTime (timestamp dose)) <= t1
   \/ t2 < real_of (getTime (timestamp dose))) ->
  decayed h t2 dose <= decayed h t1 dose.
Proof.
  intros Hh Ht Ha Hts. unfold decayed.
  set (ts := real_of (getTime (timestamp dose))) in *.
  destruct (Rlt_dec t2 ts), (Rlt_dec t1 ts); try lra.
  pose proof (mg_per_pos (dose_unit dose)).
  apply Rmult_le_compat_l.
  - apply Rmult_le_pos; lra.
  - apply decay_antitone; [exact Hh|].
    assert (0 < / 3600000) by (apply Rinv_0_lt_compat; lra).
    unfold Rdiv. nra.
Qed.

(** The levels of the two sample doses (100 mg at 0 and 100 mg a day
    later, half-life 24 h) at the time of the first and of the second. *)
Lemma sample_levels :
  calculateActiveLevel (mkDate (Fin 0)) sample_doses
    (mkConfig (Fin 24) (Some (mkDate (Fin 0)))) = Return (Fin 100)
  /\ calculateActiveLevel (mkDate (Fin 0)) sample_doses
       (mkConfig (Fin 24) (Some (mkDate (Fin 86400000)))) = Return (Fin 150).
Proof.
  assert (Hh : Fin 0 [<] Fin 24 = true) by (apply ltb_Fin; lra).
  assert (Hf : Forall finite_dose sample_doses).
  { repeat constructor. }
  split;
    (rewrite calculateActiveLevel_valid by (apply ltb_0_leb; exact Hh));
    simpl instant; simpl getTime; simpl halfLifeHours;
    rewrite (level_Fin _ _ _ Hh Hf); do 2 f_equal;
    unfold level_sum, sample_doses, decayed; simpl;
    repeat match goal with
      | |- context [Rlt_dec ?a ?b] => destruct (Rlt_dec a b); try lra
      end.
  - replace ((0 - 0) / 3600000 / 24) with 0 by lra.
    rewrite Rpower_O by lra. lra.
  - replace ((86400000 - 0) / 3600000 / 24) with 1 by lra.
    replace ((86400000 - 86400000) / 3600000 / 24) with 0 by lra.
    rewrite Rpower_O, Rpower_half_1 by lra. lra.
Qed.

(** ** Sorting, sets and maps *)

Section SortFacts.

Context {A : Type}.
Variable compareFn : A -> A -> number.

Lemma insert_sorted_perm (x : A) (l : list A) :
  Permutation (x :: l) (insert_sorted compareFn x l).
Proof.
  induction l as [|y l IH]; cbn [insert_sorted]; [apply Permutation_refl|].
  destruct (compareFn x y [>] Fin 0); [|apply Permutation_refl].
  eapply perm_trans; [apply perm_swap|]. now apply perm_skip.
Qed.

Lemma Array_sort_perm (l : list A) : Permutation l (Array_sort compareFn l).
Proof.
  induction l as [|x l IH]; simpl; [constructor|].
  eapply perm_trans; [|apply insert_sorted_perm]. now apply perm_skip.
Qed.

(** A comparator that orders by a real key, on the elements that
    satisfy [valid]. *)
Variable key : A -> R.
Variable valid : A -> Prop.
Hypothesis compare_key :
  forall x y, valid x -> valid y ->
              (compareFn x y [>] Fin 0 = true <-> key y < key x).

Lemma insert_sorted_sorted (x : A) (l : list A) :
  valid x -> Forall valid l ->
  StronglySorted (key_le key) l ->
  StronglySorted (key_le key) (insert_sorted compareFn x l).
Proof.
  intros Hx Hl Hs. induction Hs as [|y l Hs IH Hy]; cbn [insert_sorted].
  - repeat constructor.
  - inversion Hl as [|? ? Vy Vl]; subst.
    destruct (compareFn x y [>] Fin 0) eqn:E.
    + apply compare_key in E; try assumption.
      constructor; [now apply IH|].
      eapply Permutation_Forall; [apply insert_sorted_perm|].
      constructor; [unfold key_le; lra | exact Hy].
    + assert (Hxy : key x <= key y).
      { apply Rnot_lt_le. intros C. apply compare_key in C; try assumption.
        congruence. }
      constructor; [now constructor|].
      constructor; [exact Hxy|].
      eapply Forall_impl; [|exact Hy]. unfold key_le. intros; lra.
Qed.

Lemma Array_sort_sorted (l : list A) :
  Forall valid l -> StronglySorted (key_le key) (Array_sort compareFn l).
Proof.
  induction 1 as [|x l Hx Hl IH]; simpl; [constructor|].
  apply insert_sorted_sorted; try assumption.
  eapply Permutation_Forall; [apply Array_sort_perm | exact Hl].
Qed.

End SortFacts.

(** A list sorted by [<=] on keys that are pairwise different is
    sorted by [<]. *)
Lemma sorted_strict {A : Type} (key : A -> R) (l : list A) :
  StronglySorted (key_le key) l -> NoDup (map key l) ->
  StronglySorted (fun a b => key a < key b) l.
Proof.
  induction 1 as [|x l Hs IH Hx]; simpl; intros Hn; [constructor|].
  inversion Hn as [|? ? Hnot Hn']; subst.
  constructor; [now apply IH|].
  rewrite Forall_forall in *. intros y Hy.
  destruct (Hx y Hy) as [Hlt|Heq]; [exact Hlt|].
  exfalso. apply Hnot. rewrite Heq. now apply in_map.
Qed.

(** The head of a list sorted by [<=] is its least element. *)
Lemma sorted_head {A : Type} (key : A -> R) (l : list A) (m d : A) :
  StronglySorted (key_le key) l -> In m l ->
  Forall (fun a => key m <= key a) l ->
  key (hd d l) = key m.
Proof.
  intros Hs Hin Hall. destruct Hs as [|x l Hs Hx]; [contradiction|].
  simpl. inversion Hall as [|? ? Hmx _]; subst.
  destruct Hin as [<-|Hin]; [reflexivity|].
  rewrite Forall_forall in Hx. specialize (Hx _ Hin).
  unfold key_le in Hx. lra.
Qed.

(** The last element of a list sorted by [<=] is its greatest. *)
Lemma sorted_last {A : Type} (key : A -> R) (l : list A) (m d : A) :
  StronglySorted (key_le key) l -> In m l ->
  Forall (fun a => key a <= key m) l ->
  key (last l d) = key m.
Proof.
  induction 1 as [|x l Hs IH Hx]; intros Hin Hall; [contradiction|].
  inversion Hall as [|? ? Hxm Hall']; subst.
  destruct l as [|y l'].
  - destruct Hin as [<-|[]]. reflexivity.
  - change (last (x :: y :: l') d) with (last (y :: l') d).
    destruct Hin as [<-|Hin].
    + (* the greatest is the head: all keys are equal to it *)
      assert (Hy : In (last (y :: l') d) (y :: l')).
      { destruct (exists_last (l := y :: l')) as (l0 & a & E);
          [discriminate|].
        rewrite E, last_last. apply in_or_app. right. now left. }
      rewrite Forall_forall in Hx, Hall'.
      specialize (Hx _ Hy). specialize (Hall' _ Hy).
      unfold key_le in Hx. lra.
    + now apply IH.
Qed.

Lemma hd_In {A : Type} (l : list A) (m d : A) : In m l -> In (hd d l) l.
Proof. destruct l; [contradiction | now left]. Qed.

Lemma last_In {A : Type} (l : list A) (m d : A) : In m l -> In (last l d) l.
Proof.
  intros Hm. destruct (exists_last (l := l)) as (l0 & a & ->).
  - intros ->. contradiction.
  - rewrite last_last. apply in_or_app. right. now left.
Qed.

Lemma NoDup_map_real_of (l : list number) :
  Forall finite l -> NoDup l -> NoDup (map real_of l).
Proof.
  induction 1 as [|x l Hx Hl IH]; intros Hn; simpl; [constructor|].
  inversion Hn as [|? ? Hnot Hn']; subst. constructor; [|now apply IH].
  intros Hin. apply in_map_iff in Hin as (y & E & Hy).
  rewrite Forall_forall in Hl.
  apply real_of_inj in E; [subst; contradiction | now apply Hl | exact Hx].
Qed.

Lemma sorted_ltb (l : list number) :
  Forall finite l ->
  StronglySorted (fun a b => real_of a < real_of b) l ->
  StronglySorted (fun a b => a [<] b = true) l.
Proof.
  intros Hf Hs. induction Hs as [|x l Hs IH Hx]; [constructor|].
  inversion Hf as [|? ? Fx Fl]; subst. constructor; [now apply IH|].
  rewrite Forall_forall in *. intros y Hy.
  rewrite (isFinite_Fin _ Fx), (isFinite_Fin _ (Fl y Hy)).
  apply ltb_Fin. now apply Hx.
Qed.

(** [Set.add], run over a list of values. *)
Lemma Set_add_In (x y : number) (s : list number) :
  In y (Set_add x s) <-> In y s \/ y = x.
Proof.
  unfold Set_add. destruct (in_dec Num.eq_dec x s) as [Hx|Hx].
  - split; [now left|]. intros [H| ->]; assumption.
  - rewrite in_app_iff. simpl. intuition.
Qed.

Lemma Set_add_NoDup (x : number) (s : list number) :
  NoDup s -> NoDup (Set_add x s).
Proof.
  intros Hs. unfold Set_add. destruct (in_dec Num.eq_dec x s) as [Hx|Hx].
  - exact Hs.
  - apply NoDup_app; [exact Hs | repeat constructor; intros [] |].
    intros a Ha [<-|[]]. contradiction.
Qed.

Lemma fold_Set_add_In {B : Type} (f : B -> number) (l : list B)
    (s : list number) (y : number) :
  In y (fold_left (fun s b => Set_add (f b) s) l s)
  <-> In y s \/ exists b, In b l /\ y = f b.
Proof.
  revert s. induction l as [|b l IH]; intros s; simpl.
  - split; [now left|]. intros [H|(b & [] & _)]. exact H.
  - rewrite IH, Set_add_In. split.
    + intros [[H| ->]|(b' & Hb' & ->)]; eauto.
    + intros [H|(b' & [<-|Hb'] & ->)]; eauto.
Qed.

Lemma fold_Set_add_NoDup {B : Type} (f : B -> number) (l : list B)
    (s : list number) :
  NoDup s -> NoDup (fold_left (fun s b => Set_add (f b) s) l s).
Proof.
  revert s. induction l as [|b l IH]; intros s Hs; simpl; [exact Hs|].
  apply IH, Set_add_NoDup, Hs.
Qed.

(** A callback that never throws maps as [map] does. *)
Lemma Array_map_total {A B : Type} (f : A -> result B) (g : A -> B)
    (l : list A) :
  (forall x, In x l -> f x = Return (g x)) ->
  Array_map f l = Return (map g l).
Proof.
  induction l as [|x l IH]; intros H; simpl; [reflexivity|].
  rewrite (H x) by now left. simpl.
  rewrite IH by (intros y Hy; apply H; now right). reflexivity.
Qed.

(** ** The dose collection of the component *)

Lemma byTimestamp_key (a b : Dose) :
  valid_date a -> valid_date b ->
  (App.byTimestamp a b [>] Fin 0 = true <-> time_of b < time_of a).
Proof.
  unfold valid_date, App.byTimestamp, time_of. intros Ha Hb.
  rewrite (isFinite_Fin _ Ha), (isFinite_Fin _ Hb). apply gtb_sub_Fin.
Qed.

(** The guard of [addDose] lets through the positive finite amounts
    and +Infinity, and nothing else. *)
Lemma addDose_guard (amount : number) :
  Num.isNaN amount || (amount [<=] Fin 0) = false
  <-> amount = PosInf \/ exists x : R, amount = Fin x /\ 0 < x.
Proof.
  destruct amount as [| |x|]; simpl.
  - split; [discriminate | intros [H|(x & H & _)]; discriminate H].
  - split; [discriminate | intros [H|(x & H & _)]; discriminate H].
  - destruct (Rle_dec x 0) as [Hle|Hgt]; split.
    + discriminate.
    + intros [H|(y & H & Hy)]; [discriminate H|].
      injection H as ->. lra.
    + intros _. right. exists x. split; [reflexivity | lra].
    + reflexivity.
  - split; [now left | reflexivity].
Qed.



(** ** The chart series *)

Lemma Rmin_fold (l : list R) (x n : R) :
  Rmin (fold_left Rmin l x) n = Rmin x (fold_right Rmin n l).
Proof.
  revert x. induction l as [|y l IH]; intros x; simpl; [reflexivity|].
  rewrite IH. symmetry. apply Rmin_assoc.
Qed.

Lemma fold_Rmin_le (l : list R) (n : R) :
  fold_right Rmin n l <= n /\ Forall (fun x => fold_right Rmin n l <= x) l.
Proof.
  induction l as [|y l [IHn IHl]]; simpl.
  - split; [lra | constructor].
  - pose proof (Rmin_l y (fold_right Rmin n l)).
    pose proof (Rmin_r y (fold_right Rmin n l)).
    split; [lra|]. constructor; [assumption|].
    eapply Forall_impl; [|exact IHl]. simpl. intros; lra.
Qed.

Lemma fold_Rmax_ge (l : list R) (e : R) :
  e <= fold_right Rmax e l /\ Forall (fun x => x <= fold_right Rmax e l) l.
Proof.
  induction l as [|y l [IHn IHl]]; simpl.
  - split; [lra | constructor].
  - pose proof (Rmax_l y (fold_right Rmax e l)).
    pose proof (Rmax_r y (fold_right Rmax e l)).
    split; [lra|]. constructor; [assumption|].
    eapply Forall_impl; [|exact IHl]. simpl. intros; lra.
Qed.

Lemma fold_Rmax_In (l : list R) (e : R) :
  fold_right Rmax e l = e \/ In (fold_right Rmax e l) l.
Proof.
  induction l as [|y l IH]; simpl; [now left|].
  destruct (Rle_dec y (fold_right Rmax e l)).
  - rewrite Rmax_right by assumption.
    destruct IH; [now left | right; now right].
  - rewrite Rmax_left by lra. right. now left.
Qed.

Lemma valid_dates_Fin (doses : list Dose) :
  Forall valid_date doses ->
  map (fun d => getTime (timestamp d)) doses = map Fin (map time_of doses).
Proof.
  induction 1 as [|d doses Hd _ IH]; simpl; [reflexivity|].
  rewrite IH. f_equal. apply isFinite_Fin, Hd.
Qed.

Lemma time_of_In (doses : list Dose) (d : Dose) :
  In d doses -> In (time_of d) (map time_of doses).
Proof. apply in_map. Qed.

Section Grid.

Variables (n h : R) (doses : list Dose).
Hypothesis h_pos : 0 < h.

Lemma chart_start_le_now : chart_start n doses <= n.
Proof. apply fold_Rmin_le. Qed.

Lemma chart_step_pos : 0 < chart_step n h doses.
Proof.
  pose proof chart_start_le_now. unfold chart_step, chart_end. lra.
Qed.

Lemma grid_point_lt (i j : nat) :
  (i < j)%nat -> grid_point n h doses i < grid_point n h doses j.
Proof.
  intros Hij. unfold grid_point. pose proof chart_step_pos.
  assert (IZR (Z.of_nat i) < IZR (Z.of_nat j)) by (apply IZR_lt; lia).
  nra.
Qed.

Lemma grid_point_inj (i j : nat) :
  grid_point n h doses i = grid_point n h doses j -> i = j.
Proof.
  intros E. destruct (Nat.lt_trichotomy i j) as [H|[H|H]]; [|exact H|];
    apply grid_point_lt in H; lra.
Qed.

Lemma grid_point_first : grid_point n h doses 0 = chart_start n doses.
Proof. unfold grid_point. simpl. lra. Qed.

Lemma grid_point_last :
  grid_point n h doses App.numPoints = chart_end n h.
Proof.
  unfold grid_point, chart_step.
  change (IZR (Z.of_nat App.numPoints)) with 100. lra.
Qed.

Lemma grid_point_bounds (i : nat) :
  (i <= App.numPoints)%nat ->
  chart_start n doses <= grid_point n h doses i <= chart_end n h.
Proof.
  intros Hi. rewrite <- grid_point_first, <- grid_point_last.
  split.
  - destruct i; [lra|]. left. apply grid_point_lt. lia.
  - apply Nat.lt_eq_cases in Hi as [Hi| ->]; [|lra].
    left. now apply grid_point_lt.
Qed.

End Grid.

Lemma generateChartData_eq (toLocaleString : Date -> string) (n h : R)
    (st : App.State) :
  App.doses st <> [] ->
  Forall valid_date (App.doses st) ->
  App.halfLifeHours st = Fin h ->
  App.generateChartData toLocaleString (Fin n) st
  = Array_map
      (fun time =>
         bind
           (calculateActiveLevel (mkDate (Fin n)) (App.doses st)
              (mkConfig (Fin h) (Some (new_Date time))))
           (fun level =>
              Return (App.mkPoint (toLocaleString (new_Date time)) time
                        (roundTo2 level))))
      (chart_instants n h (App.doses st)).
Proof.
  intros Hne Hv Hh. unfold App.generateChartData, chart_instants.
  rewrite Hh. destruct (App.doses st) as [|d ds] eqn:Ed; [contradiction|].
  cbv zeta. rewrite (valid_dates_Fin _ Hv).
  change (map time_of (d :: ds)) with (time_of d :: map time_of ds).
  rewrite Math_min_Fin.
  assert (Hs : Math.min [Fin (fold_left Rmin (map time_of ds) (time_of d)); Fin n]
               = Fin (chart_start n (d :: ds))).
  { unfold Math.min. cbn [fold_left].
    change (Math.min2 PosInf (Fin ?x)) with (Fin x).
    rewrite min2_Fin, Rmin_fold. reflexivity. }
  rewrite Hs.
  assert (Ht : (Fin n [+] Fin h [*] Fin 5 [*] Fin 60 [*] Fin 60 [*] Fin 1000
                [-] Fin (chart_start n (d :: ds)))
               [/] number_of_nat App.numPoints
               = Fin (chart_step n h (d :: ds))).
  { change (number_of_nat App.numPoints) with (Fin 100).
    cbn [Num.add Num.mul Num.sub]. apply div_Fin. lra. }
  rewrite Ht. reflexivity.
Qed.

Lemma generateChartData_points (toLocaleString : Date -> string) (n h : R)
    (st : App.State) :
  App.doses st <> [] ->
  Forall valid_date (App.doses st) ->
  App.halfLifeHours st = Fin h ->
  0 < h ->
  App.generateChartData toLocaleString (Fin n) st
  = Return (map (chart_point toLocaleString (Fin h) (App.doses st))
              (chart_instants n h (App.doses st))).
Proof.
  intros Hne Hv Hh Hpos. rewrite (generateChartData_eq _ n h) by assumption.
  apply Array_map_total. intros time _.
  rewrite calculateActiveLevel_valid by (apply leb_Fin_false; exact Hpos).
  reflexivity.
Qed.

Lemma chart_point_timestamps (toLocaleString : Date -> string) (h : number)
    (doses : list Dose) (l : list number) :
  map App.point_timestamp (map (chart_point toLocaleString h doses) l) = l.
Proof. rewrite map_map. apply map_id. Qed.

Lemma chart_instants_spec (n h : R) (doses : list Dose) :
  Forall valid_date doses ->
  Forall finite (chart_instants n h doses)
  /\ (forall x : number,
         In x (chart_instants n h doses)
         <-> (exists d, In d doses /\ x = getTime (timestamp d))
             \/ (exists i, (i <= App.numPoints)%nat
                           /\ x = Fin (grid_point n h doses i)))
  /\ StronglySorted (key_le real_of) (chart_instants n h doses)
  /\ NoDup (chart_instants n h doses).
Proof.
  intros Hv. unfold chart_instants.
  remember (fold_left _ (seq 0 (S App.numPoints)) _) as raw eqn:Eraw.
  assert (Hin : forall x : number,
             In x raw
             <-> (exists d, In d doses /\ x = getTime (timestamp d))
                 \/ (exists i, (i <= App.numPoints)%nat
                               /\ x = Fin (grid_point n h doses i))).
  { intros x. rewrite Eraw.
    rewrite (fold_Set_add_In (fun i => Fin (grid_point n h doses i))).
    rewrite (fold_Set_add_In (fun dose => getTime (timestamp dose))).
    split.
    - intros [[[]|H]|(i & Hi & ->)]; [now left|].
      right. exists i. split; [|reflexivity]. apply in_seq in Hi. lia.
    - intros [H|(i & Hi & ->)]; [left; now right|].
      right. exists i. split; [|reflexivity]. apply in_seq. lia. }
  assert (Hn : NoDup raw).
  { rewrite Eraw. do 2 apply fold_Set_add_NoDup. constructor. }
  clear Eraw.
  assert (Hf : Forall finite raw).
  { apply Forall_forall. intros x Hx. apply Hin in Hx.
    destruct Hx as [(d & Hd & ->)|(i & _ & ->)]; [|reflexivity].
    rewrite Forall_forall in Hv. now apply Hv. }
  pose proof (Array_sort_perm (fun a b => a [-] b) raw) as Hp.
  repeat split.
  - eapply Permutation_Forall; [exact Hp | exact Hf].
  - intros Hx. apply Hin. eapply Permutation_in; [|exact Hx].
    now apply Permutation_sym.
  - intros Hx. eapply Permutation_in; [exact Hp|]. now apply Hin.
  - apply Array_sort_sorted with (valid := finite); [apply sub_key | exact Hf].
  - eapply Permutation_NoDup; [exact Hp | exact Hn].
Qed.

Lemma chart_instants_strict (n h : R) (doses : list Dose) :
  Forall valid_date doses ->
  StronglySorted (fun a b => a [<] b = true) (chart_instants n h doses).
Proof.
  intros Hv. destruct (chart_instants_spec n h doses Hv) as (Hf & _ & Hs & Hn).
  apply sorted_ltb; [exact Hf|].
  apply sorted_strict; [exact Hs|]. now apply NoDup_map_real_of.
Qed.

Lemma chart_instants_first (n h : R) (doses : list Dose) :
  0 < h -> Forall valid_date doses ->
  hd NaN (chart_instants n h doses) = Fin (chart_start n doses).
Proof.
  intros Hpos Hv.
  destruct (chart_instants_spec n h doses Hv) as (Hf & Hin & Hs & _).
  remember (chart_instants n h doses) as l eqn:El. clear El.
  assert (Hm : In (Fin (chart_start n doses)) l).
  { apply Hin. right. exists 0%nat. split; [lia|].
    now rewrite grid_point_first. }
  assert (Hhd : finite (hd NaN l)).
  { rewrite Forall_forall in Hf. apply Hf. eapply hd_In, Hm. }
  rewrite (isFinite_Fin _ Hhd). f_equal.
  apply (sorted_head real_of l (Fin (chart_start n doses)));
    [exact Hs | exact Hm |].
  apply Forall_forall. intros x Hx. apply Hin in Hx. simpl.
  destruct Hx as [(d & Hd & ->)|(i & Hi & ->)].
  - pose proof (proj2 (fold_Rmin_le (map time_of doses) n)) as Hle.
    rewrite Forall_forall in Hle. apply (Hle _ (time_of_In _ _ Hd)).
  - apply grid_point_bounds; assumption.
Qed.

Lemma chart_instants_last (n h : R) (doses : list Dose) :
  0 < h -> Forall valid_date doses ->
  last (chart_instants n h doses) NaN = Fin (chart_last n h doses).
Proof.
  intros Hpos Hv.
  destruct (chart_instants_spec n h doses Hv) as (Hf & Hin & Hs & _).
  remember (chart_instants n h doses) as l eqn:El. clear El.
  pose proof (fold_Rmax_ge (map time_of doses) (chart_end n h)) as [Hge Hall].
  fold (chart_last n h doses) in Hge, Hall.
  assert (Hm : In (Fin (chart_last n h doses)) l).
  { apply Hin.
    destruct (fold_Rmax_In (map time_of doses) (chart_end n h)) as [E|E];
      fold (chart_last n h doses) in E.
    - right. exists App.numPoints. split; [lia|].
      now rewrite grid_point_last, E.
    - left. apply in_map_iff in E as (d & E & Hd). exists d.
      split; [exact Hd|]. rewrite <- E. symmetry. apply isFinite_Fin.
      rewrite Forall_forall in Hv. now apply Hv. }
  assert (Hl : finite (last l NaN)).
  { rewrite Forall_forall in Hf. apply Hf. eapply last_In, Hm. }
  rewrite (isFinite_Fin _ Hl). f_equal.
  apply (sorted_last real_of l (Fin (chart_last n h doses)));
    [exact Hs | exact Hm |].
  apply Forall_forall. intros x Hx. apply Hin in Hx. simpl.
  destruct Hx as [(d & Hd & ->)|(i & Hi & ->)].
  - rewrite Forall_forall in Hall. apply (Hall _ (time_of_In _ _ Hd)).
  - pose proof (grid_point_bounds n h doses Hpos i Hi). simpl. lra.
Qed.

(** * The properties of the specification *)

(** C1.  One dose of [A] mg taken at [t], evaluated one half-life
    [h > 0] later, leaves [A / 2] (exactly, the arithmetic being
    exact). *)
Theorem half_life_halves (now : Date) (id : string) (A h t : R) :
  0 < h ->
  calculateActiveLevel now
    [mkDose id (Fin A) mg (mkDate (Fin t))]
    (mkConfig (Fin h) (Some (mkDate (Fin (t + h * 3600000)))))
  = Return (Fin (A / 2)).
Proof.
  intros Hh.
  rewrite calculateActiveLevel_valid by (apply leb_Fin_false; exact Hh).
  simpl fold_left. unfold remaining, instant. simpl getTime.
  fold (elapsed (Fin (t + h * 3600000)) (Fin t)). rewrite elapsed_Fin.
  replace ((t + h * 3600000 - t) / 3600000) with h by (field; lra).
  replace (Fin h [<] Fin 0) with false
    by (symmetry; apply ltb_Fin_false; lra).
  simpl halfLifeHours. rewrite div_Fin by lra. rewrite pow_half_Fin.
  replace (h / h) with 1 by (field; lra).
  rewrite Rpower_half_1. simpl. do 2 f_equal. lra.
Qed.

Lemma half_life_halves_witness :
  calculateActiveLevel (mkDate (Fin 0))
    [mkDose "a" (Fin 100) mg (mkDate (Fin 0))]
    (mkConfig (Fin 24) (Some (mkDate (Fin (0 + 24 * 3600000)))))
  = Return (Fin (100 / 2)).
Proof. apply (half_life_halves (mkDate (Fin 0)) "a" 100 24 0). lra. Defined.

(** C2.  [calculateActiveLevel] throws exactly when [halfLifeHours <=
    0]; when it throws it returns no level at all, and for a positive
    half-life it returns a level for every dose list. *)
Theorem invalid_configuration_iff (now : Date) (doses : list Dose)
    (config : CalculatorConfig) :
  ((exists message, calculateActiveLevel now doses config = Throw message)
   <-> halfLifeHours config [<=] Fin 0 = true)
  /\ (halfLifeHours config [<=] Fin 0 = true ->
      calculateActiveLevel now doses config
      = Throw "Half-life must be a positive number."
      /\ forall level, calculateActiveLevel now doses config <> Return level)
  /\ (Fin 0 [<] halfLifeHours config = true ->
      exists level, calculateActiveLevel now doses config = Return level).
Proof.
  unfold calculateActiveLevel.
  repeat split.
  - intros [message H]. destruct (_ [<=] Fin 0); [reflexivity | discriminate H].
  - intros ->. eauto.
  - rewrite H. reflexivity.
  - rewrite H. discriminate.
  - intros H. rewrite (ltb_0_leb _ H). eauto.
Qed.

Lemma invalid_configuration_witness :
  calculateActiveLevel (mkDate (Fin 0)) sample_doses (mkConfig (Fin 0) None)
  = Throw "Half-life must be a positive number."
  /\ (exists level,
         calculateActiveLevel (mkDate (Fin 0)) sample_doses
           (mkConfig (Fin 24) None) = Return level).
Proof.
  split.
  - apply (invalid_configuration_iff (mkDate (Fin 0)) sample_doses
             (mkConfig (Fin 0) None)).
    apply leb_Fin. lra.
  - apply (invalid_configuration_iff (mkDate (Fin 0)) sample_doses
             (mkConfig (Fin 24) None)).
    apply ltb_Fin. lra.
Defined.

(** C3.  A dose timed strictly after the evaluation instant
    contributes exactly 0: taking it out of the list leaves the result
    of [calculateActiveLevel] as it was. *)
Theorem future_dose_contributes_nothing (now : Date)
    (before after : list Dose) (dose : Dose) (config : CalculatorConfig) :
  getTime (instant now config) [<] getTime (timestamp dose) = true ->
  contribution (halfLifeHours config) (getTime (instant now config)) dose
  = Fin 0
  /\ calculateActiveLevel now (before ++ dose :: after) config
     = calculateActiveLevel now (before ++ after) config.
Proof.
  intros H. split.
  - apply contribution_future, H.
  - unfold calculateActiveLevel. fold (instant now config).
    destruct (_ [<=] Fin 0); [reflexivity|]. f_equal.
    rewrite !fold_remaining_app, fold_remaining_cons.
    now rewrite (contribution_future _ _ _ H), add_0_l.
Qed.

Lemma future_dose_contributes_nothing_witness :
  contribution (Fin 24) (Fin 5) (mkDose "b" (Fin 100) mg (mkDate (Fin 9)))
  = Fin 0
  /\ calculateActiveLevel (mkDate (Fin 0))
       ([mkDose "a" (Fin 1) mg (mkDate (Fin 2))]
          ++ mkDose "b" (Fin 100) mg (mkDate (Fin 9)) :: [])
       (mkConfig (Fin 24) (Some (mkDate (Fin 5))))
     = calculateActiveLevel (mkDate (Fin 0))
         ([mkDose "a" (Fin 1) mg (mkDate (Fin 2))] ++ [])
         (mkConfig (Fin 24) (Some (mkDate (Fin 5)))).
Proof.
  apply (future_dose_contributes_nothing (mkDate (Fin 0))
           [mkDose "a" (Fin 1) mg (mkDate (Fin 2))] []
           (mkDose "b" (Fin 100) mg (mkDate (Fin 9)))
           (mkConfig (Fin 24) (Some (mkDate (Fin 5))))).
  apply ltb_Fin. lra.
Defined.

(** C4, as amended.  For a positive half-life and doses of
    non-negative finite amounts, the level at [t2] is at most the
    level at [t1 <= t2] provided no dose is timed after [t1] and up
    to [t2]. *)
Theorem level_non_increasing (now : Date) (doses : list Dose)
    (h : number) (t1 t2 : R) :
  Fin 0 [<] h = true ->
  t1 <= t2 ->
  Forall (fun dose =>
            exists a ts : R,
              amount dose = Fin a /\ 0 <= a
              /\ getTime (timestamp dose) = Fin ts
              /\ (ts <= t1 \/ t2 < ts)) doses ->
  exists l1 l2 : R,
    calculateActiveLevel now doses (mkConfig h (Some (mkDate (Fin t1))))
    = Return (Fin l1)
    /\ calculateActiveLevel now doses (mkConfig h (Some (mkDate (Fin t2))))
       = Return (Fin l2)
    /\ l2 <= l1.
Proof.
  intros Hh Ht Hd.
  assert (Hf : Forall finite_dose doses).
  { eapply Forall_impl; [|exact Hd].
    intros dose (a & ts & Ha & _ & Hts & _). split.
    - now rewrite Ha.
    - now rewrite Hts. }
  exists (level_sum h t1 doses), (level_sum h t2 doses).
  rewrite !calculateActiveLevel_valid by (apply ltb_0_leb; exact Hh).
  simpl instant; simpl getTime; simpl halfLifeHours.
  rewrite !(level_Fin _ _ _ Hh Hf). repeat split.
  clear Hf. induction Hd as [|dose doses (a & ts & Ha & Ha0 & Hts & Hw) _ IH];
    simpl; [lra|].
  assert (decayed h t2 dose <= decayed h t1 dose); [|lra].
  apply decayed_antitone; try assumption.
  - now rewrite Ha.
  - now rewrite Hts.
Qed.

Lemma level_non_increasing_witness :
  exists l1 l2 : R,
    calculateActiveLevel (mkDate (Fin 0)) sample_doses
      (mkConfig (Fin 24) (Some (mkDate (Fin 86400000)))) = Return (Fin l1)
    /\ calculateActiveLevel (mkDate (Fin 0)) sample_doses
         (mkConfig (Fin 24) (Some (mkDate (Fin 172800000)))) = Return (Fin l2)
    /\ l2 <= l1.
Proof.
  apply (level_non_increasing (mkDate (Fin 0)) sample_doses (Fin 24)
           86400000 172800000).
  - apply ltb_Fin. lra.
  - lra.
  - repeat constructor.
    + exists 100, 0. repeat split; lra.
    + exists 100, 86400000. repeat split; lra.
Defined.

(** C4 as stated fails: the level rises when the evaluation instant
    reaches a later dose (from 100 at the first dose to 150 at the
    second). *)
Lemma level_rises_at_later_dose :
  0 <= 86400000
  /\ calculateActiveLevel (mkDate (Fin 0)) sample_doses
       (mkConfig (Fin 24) (Some (mkDate (Fin 0)))) = Return (Fin 100)
  /\ calculateActiveLevel (mkDate (Fin 0)) sample_doses
       (mkConfig (Fin 24) (Some (mkDate (Fin 86400000)))) = Return (Fin 150)
  /\ Fin 150 [<=] Fin 100 = false.
Proof.
  destruct sample_levels as [H1 H2].
  repeat split; [lra | exact H1 | exact H2 | apply leb_Fin_false; lra].
Qed.

(** C5.  [convertToMg] is the four-row table: mg and IU leave the
    amount as it is, g multiplies it by 1000 and ug divides it by 1000;
    hence 1000 ug, 1 mg and 0.001 g are all the amount 1.  It has no
    error case: a finite amount always converts to a finite amount. *)
Theorem convertToMg_table :
  (forall a : number,
      convertToMg a mg = a
      /\ convertToMg a g = a [*] Fin 1000
      /\ convertToMg a ug = a [/] Fin 1000
      /\ convertToMg a iu = a)
  /\ (forall x : R,
         convertToMg (Fin x) g = Fin (x * 1000)
         /\ convertToMg (Fin x) ug = Fin (x / 1000))
  /\ (convertToMg (Fin 1000) ug = Fin 1
      /\ convertToMg (Fin 1) mg = Fin 1
      /\ convertToMg (Fin 0.001) g = Fin 1)
  /\ (forall (x : R) (u : Unit), exists y : R, convertToMg (Fin x) u = Fin y).
Proof.
  assert (Hug : forall x, convertToMg (Fin x) ug = Fin (x / 1000)).
  { intros x. unfold convertToMg. apply div_Fin. lra. }
  repeat split; try reflexivity; try apply Hug.
  - rewrite Hug. f_equal. lra.
  - simpl. f_equal. lra.
  - intros x u. destruct u.
    + now exists x.
    + exists (x / 1000). apply Hug.
    + now exists (x * 1000).
    + now exists x.
Qed.

(** C6.  One dose, evaluated at the dose's own time, for a positive
    half-life: the level is the dose's amount in mg, the decay factor
    being 1. *)
Theorem level_at_own_timestamp (now : Date) (config : CalculatorConfig)
    (dose : Dose) (t : R) :
  Fin 0 [<] halfLifeHours config = true ->
  getTime (timestamp dose) = Fin t ->
  getTime (instant now config) = Fin t ->
  calculateActiveLevel now [dose] config
  = Return (convertToMg (amount dose) (dose_unit dose))
  /\ Math.pow (Fin 0.5)
       (elapsed (getTime (instant now config)) (getTime (timestamp dose))
        [/] halfLifeHours config) = Fin 1.
Proof.
  intros Hh Hd Ht.
  assert (He : elapsed (Fin t) (Fin t) = Fin 0).
  { rewrite elapsed_Fin. f_equal. unfold Rdiv, Rminus.
    rewrite Rplus_opp_r. apply Rmult_0_l. }
  split.
  - rewrite calculateActiveLevel_valid by (apply ltb_0_leb; exact Hh).
    simpl fold_left. unfold remaining. rewrite Ht, Hd.
    fold (elapsed (Fin t) (Fin t)). rewrite He.
    replace (Fin 0 [<] Fin 0) with false
      by (symmetry; apply ltb_Fin_false; lra).
    rewrite (factor_at_zero _ Hh), mul_1_r, add_0_l. reflexivity.
  - rewrite Ht, Hd, He. apply factor_at_zero, Hh.
Qed.

Lemma level_at_own_timestamp_witness :
  calculateActiveLevel (mkDate (Fin 0))
    [mkDose "a" (Fin 2) g (mkDate (Fin 7))]
    (mkConfig (Fin 24) (Some (mkDate (Fin 7))))
  = Return (convertToMg (Fin 2) g)
  /\ Math.pow (Fin 0.5) (elapsed (Fin 7) (Fin 7) [/] Fin 24) = Fin 1.
Proof.
  apply (level_at_own_timestamp (mkDate (Fin 0))
           (mkConfig (Fin 24) (Some (mkDate (Fin 7))))
           (mkDose "a" (Fin 2) g (mkDate (Fin 7))) 7).
  - apply ltb_Fin. lra.
  - reflexivity.
  - reflexivity.
Defined.







(** C9, as amended.  For the empty dose list and any configuration
    whose half-life is not [<= 0], at any evaluation instant,
    [calculateActiveLevel] returns 0. *)
Theorem empty_collection_level (now : Date) (config : CalculatorConfig) :
  halfLifeHours config [<=] Fin 0 = false ->
  calculateActiveLevel now [] config = Return (Fin 0).
Proof. intros H. now rewrite calculateActiveLevel_valid. Qed.

Lemma empty_collection_level_witness :
  calculateActiveLevel (mkDate (Fin 0)) [] (mkConfig (Fin 24) None)
  = Return (Fin 0).
Proof.
  apply (empty_collection_level (mkDate (Fin 0)) (mkConfig (Fin 24) None)).
  apply leb_Fin_false. lra.
Defined.

(** C9 as stated fails: with a half-life of 0 the empty list gives an
    exception, not the level 0. *)
Lemma empty_collection_zero_half_life :
  calculateActiveLevel (mkDate (Fin 0)) [] (mkConfig (Fin 0) None)
  = Throw "Half-life must be a positive number."
  /\ calculateActiveLevel (mkDate (Fin 0)) [] (mkConfig (Fin 0) None)
     <> Return (Fin 0).
Proof.
  assert (H : Fin 0 [<=] Fin 0 = true) by (apply leb_Fin; lra).
  unfold calculateActiveLevel. simpl halfLifeHours. rewrite H.
  split; [reflexivity | discriminate].
Qed.



(** * Further properties of the code *)

(** ** More arithmetic of [number] *)

Lemma add_NaN_l (a : number) : NaN [+] a = NaN.
Proof. reflexivity. Qed.

Lemma add_NaN_r (a : number) : a [+] NaN = NaN.
Proof. destruct a; reflexivity. Qed.

Lemma mul_NaN_r (a : number) : a [*] NaN = NaN.
Proof. destruct a; reflexivity. Qed.

Lemma pow_NaN (b : number) : Math.pow b NaN = NaN.
Proof. reflexivity. Qed.

Lemma Rpower_half_pos (x : R) : 0 < Rpower 0.5 x.
Proof. unfold Rpower. apply exp_pos. Qed.

Lemma Rpower_half_le_1 (x : R) : 0 <= x -> Rpower 0.5 x <= 1.
Proof.
  intros Hx. rewrite <- (Rpower_O 0.5) by lra.
  now apply Rpower_half_antitone.
Qed.

Lemma Rpower_half_lt_1 (x : R) : 0 < x -> Rpower 0.5 x < 1.
Proof.
  intros Hx. replace 1 with (Rpower 0.5 0) by (apply Rpower_O; lra).
  unfold Rpower. apply exp_increasing.
  pose proof ln_half_neg. nra.
Qed.

(** ** Invalid numbers in the fold *)

Lemma contribution_invalid_date (h t : number) (dose : Dose) :
  getTime (timestamp dose) = NaN -> contribution h t dose = NaN.
Proof.
  intros E. unfold contribution, remaining. rewrite E.
  replace (t [-] NaN) with NaN by (destruct t; reflexivity).
  cbn [Num.div Num.ltb]. now rewrite mul_NaN_r.
Qed.

Lemma contribution_NaN_half_life (t : number) (dose : Dose) :
  elapsed t (getTime (timestamp dose)) [<] Fin 0 = false ->
  contribution NaN t dose = NaN.
Proof.
  intros E. unfold contribution, remaining.
  fold (elapsed t (getTime (timestamp dose))). rewrite E.
  replace (elapsed t (getTime (timestamp dose)) [/] NaN) with NaN
    by (destruct (elapsed _ _); reflexivity).
  now rewrite pow_NaN, mul_NaN_r.
Qed.

(** One NaN contribution makes the whole sum NaN. *)
Lemma fold_remaining_NaN (h t : number) (doses : list Dose) (dose : Dose) :
  In dose doses -> contribution h t dose = NaN ->
  fold_left (remaining h t) doses (Fin 0) = NaN.
Proof.
  intros Hin E. apply in_split in Hin as (before & after & ->).
  rewrite fold_remaining_app, fold_remaining_cons, E.
  rewrite add_NaN_l. apply add_NaN_r.
Qed.

(** A sum of contributions that are all 0 is 0. *)
Lemma fold_remaining_zero (h t : number) (doses : list Dose) :
  Forall (fun dose => contribution h t dose = Fin 0) doses ->
  fold_left (remaining h t) doses (Fin 0) = Fin 0.
Proof.
  induction 1 as [|dose doses E _ IH]; [reflexivity|].
  rewrite fold_remaining_cons, E, IH. apply add_0_l.
Qed.

(** ** More on the level as a sum of real numbers *)

Lemma level_at (now : Date) (doses : list Dose) (h : number) (t : R) :
  Fin 0 [<] h = true -> Forall finite_dose doses ->
  calculateActiveLevel now doses (mkConfig h (Some (mkDate (Fin t))))
  = Return (Fin (level_sum h t doses)).
Proof.
  intros Hh Hf.
  rewrite calculateActiveLevel_valid by (apply ltb_0_leb; exact Hh).
  simpl instant; simpl getTime; simpl halfLifeHours.
  now rewrite level_Fin.
Qed.

(** After [d] more milliseconds with no dose in between, what is
    left of a dose is what was left times 0.5 to the power of the
    half-lives gone by. *)
Lemma decayed_later (h t d : R) (dose : Dose) :
  0 < h -> 0 <= d ->
  time_of dose <= t \/ t + d < time_of dose ->
  decayed (Fin h) (t + d) dose
  = decayed (Fin h) t dose * Rpower 0.5 (d / 3600000 / h).
Proof.
  intros Hh Hd Hts. unfold decayed. fold (time_of dose).
  destruct (Rlt_dec (t + d) (time_of dose)), (Rlt_dec t (time_of dose));
    try lra.
  cbn [decay].
  replace ((t + d - time_of dose) / 3600000 / h)
    with ((t - time_of dose) / 3600000 / h + d / 3600000 / h)
    by (field; lra).
  rewrite Rpower_plus. ring.
Qed.

Lemma level_sum_later (h t d : R) (doses : list Dose) :
  0 < h -> 0 <= d ->
  Forall (fun dose => time_of dose <= t \/ t + d < time_of dose) doses ->
  level_sum (Fin h) (t + d) doses
  = level_sum (Fin h) t doses * Rpower 0.5 (d / 3600000 / h).
Proof.
  intros Hh Hd. induction 1 as [|dose doses Hts _ IH]; simpl; [lra|].
  rewrite IH, decayed_later by assumption. lra.
Qed.

Lemma level_sum_nonneg (h : number) (t : R) (doses : list Dose) :
  Forall (fun dose => 0 <= real_of (amount dose)) doses ->
  0 <= level_sum h t doses.
Proof.
  induction 1 as [|dose doses Ha _ IH]; simpl; [lra|].
  pose proof (decayed_nonneg h t dose Ha). lra.
Qed.

Lemma decayed_pos (h : number) (t : R) (dose : Dose) :
  0 < real_of (amount dose) -> time_of dose <= t -> 0 < decayed h t dose.
Proof.
  intros Ha Hts. unfold decayed. fold (time_of dose).
  destruct (Rlt_dec t (time_of dose)); [lra|].
  pose proof (decay_pos h ((t - time_of dose) / 3600000)).
  pose proof (mg_per_pos (dose_unit dose)).
  apply Rmult_lt_0_compat; [apply Rmult_lt_0_compat|]; assumption.
Qed.

Lemma level_sum_pos (h : number) (t : R) (doses : list Dose) :
  Forall (fun dose => 0 <= real_of (amount dose)) doses ->
  Exists (fun dose => 0 < real_of (amount dose) /\ time_of dose <= t) doses ->
  0 < level_sum h t doses.
Proof.
  intros Hall Hex. induction Hall as [|dose doses Ha Hall IH]; simpl.
  - inversion Hex.
  - pose proof (decayed_nonneg h t dose Ha).
    pose proof (level_sum_nonneg h t doses Hall).
    inversion Hex as [? ? [Hp Hts]|? ? Hex']; subst.
    + pose proof (decayed_pos h t dose Hp Hts). lra.
    + specialize (IH Hex'). lra.
Qed.

Lemma decayed_le_mg (h : number) (t : R) (dose : Dose) :
  Fin 0 [<] h = true -> 0 <= real_of (amount dose) ->
  decayed h t dose <= mg_of dose.
Proof.
  intros Hh Ha. unfold decayed, mg_of. fold (time_of dose).
  pose proof (mg_per_pos (dose_unit dose)) as Hm.
  assert (Hp : 0 <= real_of (amount dose) * mg_per (dose_unit dose))
    by (apply Rmult_le_pos; lra).
  destruct (Rlt_dec t (time_of dose)) as [Hlt|Hge]; [exact Hp|].
  assert (Hd : decay h ((t - time_of dose) / 3600000) <= 1).
  { replace 1 with (decay h 0).
    - apply decay_antitone; [exact Hh|].
      assert (0 < / 3600000) by (apply Rinv_0_lt_compat; lra).
      unfold Rdiv. nra.
    - destruct h; simpl; try reflexivity.
      unfold Rdiv. rewrite Rmult_0_l. apply Rpower_O. lra. }
  pose proof (decay_pos h ((t - time_of dose) / 3600000)). nra.
Qed.

(** ** Further properties of [calculateActiveLevel] *)





(** X4.  The level never exceeds what was taken: for a valid half-life
    and doses of non-negative amounts it is at most the sum of the
    amounts in mg. *)
Theorem level_at_most_taken (now : Date) (doses : list Dose)
    (config : CalculatorConfig) (t : R) :
  Fin 0 [<] halfLifeHours config = true ->
  getTime (instant now config) = Fin t ->
  Forall (fun dose => finite_dose dose /\ 0 <= real_of (amount dose)) doses ->
  exists l : R,
    calculateActiveLevel now doses config = Return (Fin l)
    /\ l <= total_mg doses.
Proof.
  intros Hh Ht Hall. pose proof (ltb_0_leb _ Hh) as Hv.
  rewrite calculateActiveLevel_valid by exact Hv. rewrite Ht.
  assert (Hf : Forall finite_dose doses)
    by (eapply Forall_impl; [|exact Hall]; now intros dose [H _]).
  rewrite (level_Fin _ _ _ Hh Hf). eexists. split; [reflexivity|].
  clear Hf. induction Hall as [|dose doses [_ Ha] _ IH]; simpl; [lra|].
  pose proof (decayed_le_mg (halfLifeHours config) t dose Hh Ha). lra.
Qed.

Lemma level_at_most_taken_witness :
  exists l : R,
    calculateActiveLevel (mkDate (Fin 0)) sample_doses
      (mkConfig (Fin 24) (Some (mkDate (Fin 86400000))))
    = Return (Fin l)
    /\ l <= total_mg sample_doses.
Proof.
  apply (level_at_most_taken (mkDate (Fin 0)) sample_doses
           (mkConfig (Fin 24) (Some (mkDate (Fin 86400000)))) 86400000).
  - apply ltb_Fin. lra.
  - reflexivity.
  - repeat constructor; simpl; lra.
Defined.

(** X5.  As long as every dose lies in the future the level is 0, for
    any half-life that passes the guard. *)
Theorem level_zero_before_doses (now : Date) (doses : list Dose)
    (config : CalculatorConfig) :
  halfLifeHours config [<=] Fin 0 = false ->
  Forall (fun dose =>
            getTime (instant now config) [<] getTime (timestamp dose) = true)
    doses ->
  calculateActiveLevel now doses config = Return (Fin 0).
Proof.
  intros Hv Hall. rewrite calculateActiveLevel_valid by exact Hv.
  f_equal. apply fold_remaining_zero.
  eapply Forall_impl; [|exact Hall].
  intros dose H. now apply contribution_future.
Qed.

Lemma level_zero_before_doses_witness :
  calculateActiveLevel (mkDate (Fin 0)) sample_doses
    (mkConfig (Fin 24) (Some (mkDate (Fin (- 1)))))
  = Return (Fin 0).
Proof.
  apply (level_zero_before_doses (mkDate (Fin 0)) sample_doses
           (mkConfig (Fin 24) (Some (mkDate (Fin (- 1)))))).
  - apply leb_Fin_false. lra.
  - repeat constructor; apply ltb_Fin; lra.
Defined.

(** Two doses with the same time and the same amount in mg count the
    same, wherever they stand in the list. *)
Lemma remaining_same_mg (h t total : number) (d1 d2 : Dose) :
  timestamp d1 = timestamp d2 ->
  convertToMg (amount d1) (dose_unit d1)
  = convertToMg (amount d2) (dose_unit d2) ->
  remaining h t total d1 = remaining h t total d2.
Proof. intros Et Em. unfold remaining. now rewrite Et, Em. Qed.

Lemma level_same_mg (now : Date) (before after : list Dose) (d1 d2 : Dose)
    (config : CalculatorConfig) :
  timestamp d1 = timestamp d2 ->
  convertToMg (amount d1) (dose_unit d1)
  = convertToMg (amount d2) (dose_unit d2) ->
  calculateActiveLevel now (before ++ d1 :: after) config
  = calculateActiveLevel now (before ++ d2 :: after) config.
Proof.
  intros Et Em. unfold calculateActiveLevel.
  destruct (_ [<=] Fin 0); [reflexivity|]. f_equal.
  rewrite !fold_left_app. cbn [fold_left].
  now rewrite (remaining_same_mg _ _ _ d1 d2 Et Em).
Qed.


Lemma decayed_scaled (h : number) (t c : R) (dose : Dose) :
  finite_dose dose ->
  decayed h t
    (mkDose (dose_id dose) (amount dose [*] Fin c) (dose_unit dose)
       (timestamp dose))
  = c * decayed h t dose.
Proof.
  intros [Ha _]. unfold decayed. cbn [amount dose_unit timestamp].
  rewrite (isFinite_Fin _ Ha). cbn [Num.mul real_of].
  destruct (Rlt_dec _ _); ring.
Qed.

Lemma level_sum_scaled (h : number) (t c : R) (doses : list Dose) :
  Forall finite_dose doses ->
  level_sum h t (scale_doses (Fin c) doses) = c * level_sum h t doses.
Proof.
  unfold level_sum, scale_doses.
  induction 1 as [|dose doses Hd _ IH]; cbn [map fold_right]; [lra|].
  rewrite IH, (decayed_scaled h t c dose Hd). ring.
Qed.



(** X8.  A dose with an invalid date makes the level NaN; nothing is
    thrown. *)
Theorem invalid_date_gives_NaN (now : Date) (doses : list Dose)
    (dose : Dose) (config : CalculatorConfig) :
  halfLifeHours config [<=] Fin 0 = false ->
  In dose doses ->
  getTime (timestamp dose) = NaN ->
  calculateActiveLevel now doses config = Return NaN.
Proof.
  intros Hv Hin E. rewrite calculateActiveLevel_valid by exact Hv.
  f_equal. apply (fold_remaining_NaN _ _ _ dose Hin).
  now apply contribution_invalid_date.
Qed.

Lemma invalid_date_gives_NaN_witness :
  calculateActiveLevel (mkDate (Fin 0))
    (sample_doses ++ [mkDose "c" (Fin 1) mg (mkDate NaN)])
    (mkConfig (Fin 24) None)
  = Return NaN.
Proof.
  apply (invalid_date_gives_NaN (mkDate (Fin 0))
           (sample_doses ++ [mkDose "c" (Fin 1) mg (mkDate NaN)])
           (mkDose "c" (Fin 1) mg (mkDate NaN)) (mkConfig (Fin 24) None)).
  - apply leb_Fin_false. lra.
  - apply in_or_app. right. now left.
  - reflexivity.
Defined.

(** X9.  A half-life of NaN passes the guard: the level is then NaN as
    soon as one dose with a valid date is not in the future. *)
Theorem NaN_half_life_gives_NaN (now : Date) (doses : list Dose)
    (dose : Dose) (target : option Date) (t : R) :
  getTime (instant now (mkConfig NaN target)) = Fin t ->
  In dose doses ->
  valid_date dose ->
  time_of dose <= t ->
  calculateActiveLevel now doses (mkConfig NaN target) = Return NaN.
Proof.
  intros Ht Hin Hd Hle.
  rewrite calculateActiveLevel_valid by reflexivity.
  rewrite Ht. cbn [halfLifeHours]. f_equal.
  apply (fold_remaining_NaN _ _ _ dose Hin).
  apply contribution_NaN_half_life.
  rewrite (isFinite_Fin _ Hd), elapsed_Fin. fold (time_of dose).
  apply ltb_Fin_false.
  apply Rnot_lt_le. intros C. apply elapsed_neg_iff in C. lra.
Qed.

Lemma NaN_half_life_gives_NaN_witness :
  calculateActiveLevel (mkDate (Fin 0)) sample_doses (mkConfig NaN None)
  = Return NaN.
Proof.
  apply (NaN_half_life_gives_NaN (mkDate (Fin 0)) sample_doses
           (mkDose "a" (Fin 100) mg (mkDate (Fin 0))) None 0).
  - reflexivity.
  - now left.
  - reflexivity.
  - unfold time_of. simpl. lra.
Defined.

(** ** Further properties of the component *)

Lemma or_else_0 (a : number) :
  Num.isNaN (or_else a (Fin 0)) = false
  /\ or_else a (Fin 0) [<=] Fin 0 = negb (Fin 0 [<] a).
Proof.
  unfold or_else. destruct a as [| |x|]; simpl; try (split; reflexivity).
  - split; [reflexivity|]. destruct (Rle_dec 0 0); [reflexivity | lra].
  - destruct (Req_dec_T x 0) as [->|Hx]; simpl; (split; [reflexivity|]);
      destruct (Rle_dec _ 0), (Rlt_dec 0 _); try reflexivity; lra.
Qed.

Lemma currentLevel_valid (now : number) (st : App.State) :
  App.halfLifeHours st [<=] Fin 0 = false ->
  App.currentLevel now st
  = Return (fold_left (remaining (App.halfLifeHours st) now) (App.doses st)
              (Fin 0)).
Proof.
  intros Hv. unfold App.currentLevel.
  destruct (App.doses st) as [|d ds] eqn:E; [reflexivity|].
  now rewrite calculateActiveLevel_valid.
Qed.

Lemma currentLevel_throws (now : number) (st : App.State) :
  (exists message, App.currentLevel now st = Throw message)
  <-> App.doses st <> [] /\ App.halfLifeHours st [<=] Fin 0 = true.
Proof.
  unfold App.currentLevel, calculateActiveLevel. cbn [halfLifeHours].
  destruct (App.doses st) as [|d ds].
  - split; [intros [m H]; discriminate H | intros [H _]; contradiction].
  - destruct (App.halfLifeHours st [<=] Fin 0); split.
    + intros _. split; [discriminate | reflexivity].
    + intros _. eauto.
    + intros [m H]. discriminate H.
    + intros [_ H]. discriminate H.
Qed.

(** X10.  Whatever is typed into the half-life field, the half-life of
    the state is never NaN; and the level display throws exactly when
    there are doses and the text does not parse to a number above 0
    (an empty field, a text that is no number, zero or a negative
    number). *)
Theorem half_life_field (value : string) (now : number) (st : App.State) :
  Num.isNaN (App.halfLifeHours (changeHalfLife value st)) = false
  /\ ((exists message,
          App.currentLevel now (changeHalfLife value st) = Throw message)
      <-> App.doses st <> [] /\ Fin 0 [<] parseFloat value = false).
Proof.
  destruct (or_else_0 (parseFloat value)) as [Hn Hle].
  split; [exact Hn|]. rewrite currentLevel_throws.
  cbn [changeHalfLife App.doses App.halfLifeHours]. rewrite Hle.
  destruct (Fin 0 [<] parseFloat value); simpl; intuition congruence.
Qed.

Lemma addDose_rejected (Date_parse : string -> Date)
    (toISOString : Date -> string) (Number_toString : number -> string)
    (now : number) (st : App.State) :
  Num.isNaN (parseFloat (App.newDoseAmount st))
  || (parseFloat (App.newDoseAmount st) [<=] Fin 0) = true ->
  App.doses (App.addDose Date_parse toISOString Number_toString now st)
  = App.doses st
  /\ App.alerts (App.addDose Date_parse toISOString Number_toString now st)
     = App.alerts st ++ ["Please enter a valid amount"%string].
Proof. unfold App.addDose. intros ->. split; reflexivity. Qed.

(** After [addDose] the amount field holds nothing [addDose] would
    take: it was rejected and is still there, or it was taken and the
    field is empty. *)
Lemma addDose_leaves_invalid (Date_parse : string -> Date)
    (toISOString : Date -> string) (Number_toString : number -> string)
    (now : number) (st : App.State) :
  Num.isNaN
    (parseFloat
       (App.newDoseAmount
          (App.addDose Date_parse toISOString Number_toString now st)))
  || (parseFloat
        (App.newDoseAmount
           (App.addDose Date_parse toISOString Number_toString now st))
      [<=] Fin 0) = true.
Proof.
  unfold App.addDose.
  destruct (Num.isNaN (parseFloat (App.newDoseAmount st))
            || (parseFloat (App.newDoseAmount st) [<=] Fin 0)) eqn:G;
    [exact G | reflexivity].
Qed.

(** X11.  Pressing Add twice adds at most one dose: the second press finds
    the amount field empty (or as invalid as before), alerts, and
    leaves the collection as the first press made it. *)
Theorem addDose_twice (Date_parse : string -> Date)
    (toISOString : Date -> string) (Number_toString : number -> string)
    (now1 now2 : number) (st : App.State) :
  App.doses
    (App.addDose Date_parse toISOString Number_toString now2
       (App.addDose Date_parse toISOString Number_toString now1 st))
  = App.doses (App.addDose Date_parse toISOString Number_toString now1 st)
  /\ App.alerts
       (App.addDose Date_parse toISOString Number_toString now2
          (App.addDose Date_parse toISOString Number_toString now1 st))
     = App.alerts (App.addDose Date_parse toISOString Number_toString now1 st)
       ++ ["Please enter a valid amount"%string].
Proof. apply addDose_rejected, addDose_leaves_invalid. Qed.

Lemma addDose_accepted (Date_parse : string -> Date)
    (toISOString : Date -> string) (Number_toString : number -> string)
    (now : number) (st : App.State) :
  accepted st ->
  App.doses (App.addDose Date_parse toISOString Number_toString now st)
  = Array_sort App.byTimestamp
      (App.doses st ++ [newDose Date_parse Number_toString now st])
  /\ App.halfLifeHours
       (App.addDose Date_parse toISOString Number_toString now st)
     = App.halfLifeHours st.
Proof.
  unfold accepted, App.addDose. intros ->. split; reflexivity.
Qed.



(** X13.  [addDose] checks the amount but not the time: a dose submitted
    with a time the host cannot parse enters the collection, and the
    displayed level is NaN from then on. *)
Theorem addDose_invalid_time (Date_parse : string -> Date)
    (toISOString : Date -> string) (Number_toString : number -> string)
    (now later : number) (st : App.State) :
  App.halfLifeHours st [<=] Fin 0 = false ->
  accepted st ->
  getTime (Date_parse (App.newDoseTime st)) = NaN ->
  In (newDose Date_parse Number_toString now st)
    (App.doses (App.addDose Date_parse toISOString Number_toString now st))
  /\ App.currentLevel later
       (App.addDose Date_parse toISOString Number_toString now st)
     = Return NaN.
Proof.
  intros Hv Ha Ht.
  destruct (addDose_accepted Date_parse toISOString Number_toString now st Ha)
    as [Ed Eh].
  assert (Hin : In (newDose Date_parse Number_toString now st)
                  (App.doses
                     (App.addDose Date_parse toISOString Number_toString
                        now st))).
  { rewrite Ed. eapply Permutation_in; [apply Array_sort_perm|].
    apply in_or_app. right. now left. }
  split; [exact Hin|].
  rewrite currentLevel_valid by (rewrite Eh; exact Hv). f_equal.
  apply (fold_remaining_NaN _ _ _ _ Hin).
  now apply contribution_invalid_date.
Qed.

Lemma addDose_invalid_time_witness :
  In (newDose invalid_Date_parse sample_Number_toString (Fin 0)
        valid_amount_state)
    (App.doses
       (App.addDose invalid_Date_parse sample_toISOString
          sample_Number_toString (Fin 0) valid_amount_state))
  /\ App.currentLevel (Fin 0)
       (App.addDose invalid_Date_parse sample_toISOString
          sample_Number_toString (Fin 0) valid_amount_state)
     = Return NaN.
Proof.
  apply (addDose_invalid_time invalid_Date_parse sample_toISOString
           sample_Number_toString (Fin 0) (Fin 0) valid_amount_state).
  - apply leb_Fin_false. lra.
  - apply addDose_guard. right. eexists. split; [reflexivity|]. simpl. lra.
  - reflexivity.
Defined.

(** ** Sorting a list that is sorted already *)

Section SortAgain.

Context {A : Type}.
Variable compareFn : A -> A -> number.
Variable key : A -> R.
Variable valid : A -> Prop.
Hypothesis compare_key :
  forall x y, valid x -> valid y ->
              (compareFn x y [>] Fin 0 = true <-> key y < key x).

(** An element that is not after the head goes to the front. *)
Lemma insert_sorted_front (x y : A) (l : list A) :
  valid x -> valid y -> key x <= key y ->
  insert_sorted compareFn x (y :: l) = x :: y :: l.
Proof.
  intros Hx Hy Hle. cbn [insert_sorted].
  destruct (compareFn x y [>] Fin 0) eqn:E; [|reflexivity].
  apply compare_key in E; try assumption. lra.
Qed.

(** Sorting a sorted list with one more element at its end puts
    that element in and moves nothing else. *)
Lemma Array_sort_snoc (x : A) (l : list A) :
  valid x -> Forall valid l -> StronglySorted (key_le key) l ->
  exists l1 l2 : list A,
    l = l1 ++ l2 /\ Array_sort compareFn (l ++ [x]) = l1 ++ x :: l2.
Proof.
  intros Hx Hv Hs. unfold Array_sort. rewrite fold_right_app.
  cbn [fold_right insert_sorted].
  induction Hs as [|y l Hs IH Hy]; cbn [fold_right].
  - exists [], []. split; reflexivity.
  - inversion Hv as [|? ? Vy Vl]; subst.
    destruct (IH Vl) as (l1 & l2 & El & Es). rewrite Es.
    destruct l1 as [|z l1].
    + cbn [app]. cbn [app] in El. subst l2.
      destruct (compareFn y x [>] Fin 0) eqn:E.
      * exists [], (y :: l). split; [reflexivity|].
        cbn [app insert_sorted]. rewrite E. f_equal.
        destruct l as [|z l]; [reflexivity|].
        inversion Vl; inversion Hy; subst.
        now apply insert_sorted_front.
      * exists [y], l. split; [reflexivity|].
        cbn [app insert_sorted]. now rewrite E.
    + exists (y :: z :: l1), l2. split; [now rewrite El|].
      rewrite El in Vl, Hy. inversion Vl; inversion Hy; subst.
      cbn [app]. now apply insert_sorted_front.
Qed.

End SortAgain.

Lemma filter_keeps_all {A : Type} (p : A -> bool) (l : list A) :
  Forall (fun x => p x = true) l -> filter p l = l.
Proof.
  induction 1 as [|x l Hx _ IH]; simpl; [reflexivity|].
  now rewrite Hx, IH.
Qed.

Lemma filter_sorted {A : Type} (R : A -> A -> Prop) (p : A -> bool)
    (l : list A) :
  StronglySorted R l -> StronglySorted R (filter p l).
Proof.
  induction 1 as [|x l Hs IH Hx]; simpl; [constructor|].
  destruct (p x); [|exact IH]. constructor; [exact IH|].
  apply Forall_forall. intros y Hy. apply filter_In in Hy as [Hy _].
  rewrite Forall_forall in Hx. now apply Hx.
Qed.

Lemma filter_Forall {A : Type} (P : A -> Prop) (p : A -> bool) (l : list A) :
  Forall P l -> Forall P (filter p l).
Proof.
  intros H. apply Forall_forall. intros x Hx.
  apply filter_In in Hx as [Hx _]. rewrite Forall_forall in H. now apply H.
Qed.

Lemma filter_split_perm {A : Type} (p : A -> bool) (l : list A) :
  Permutation l (filter p l ++ filter (fun x => negb (p x)) l).
Proof.
  induction l as [|x l IH]; simpl; [constructor|].
  destruct (p x); simpl.
  - now constructor.
  - now apply Permutation_cons_app.
Qed.

(** ** Removing doses *)

(** X14.  Removing the dose just added gives back the collection as it
    was, provided the collection was in order of time, the dates are
    valid and no other dose has the id of the new one. *)
Theorem add_then_remove (Date_parse : string -> Date)
    (toISOString : Date -> string) (Number_toString : number -> string)
    (now : number) (st : App.State) :
  accepted st ->
  StronglySorted (key_le time_of) (App.doses st) ->
  Forall valid_date (App.doses st) ->
  valid_date (newDose Date_parse Number_toString now st) ->
  Forall (fun dose => dose_id dose <> Number_toString now) (App.doses st) ->
  App.doses
    (App.removeDose (Number_toString now)
       (App.addDose Date_parse toISOString Number_toString now st))
  = App.doses st.
Proof.
  intros Ha Hs Hv Hn Hid.
  destruct (addDose_accepted Date_parse toISOString Number_toString now st Ha)
    as [Ed _].
  cbn [App.removeDose App.doses]. rewrite Ed.
  destruct (Array_sort_snoc App.byTimestamp time_of valid_date
              byTimestamp_key _ _ Hn Hv Hs) as (l1 & l2 & El & ->).
  rewrite filter_app. cbn [filter newDose dose_id].
  rewrite String.eqb_refl. cbn [negb]. rewrite <- filter_app, <- El.
  apply filter_keeps_all. eapply Forall_impl; [|exact Hid].
  intros dose H. apply negb_true_iff. now apply String.eqb_neq.
Qed.

Lemma add_then_remove_witness :
  App.doses
    (App.removeDose (sample_Number_toString (Fin 0))
       (App.addDose sample_Date_parse sample_toISOString
          sample_Number_toString (Fin 0) valid_amount_state))
  = App.doses valid_amount_state.
Proof.
  apply (add_then_remove sample_Date_parse sample_toISOString
           sample_Number_toString (Fin 0) valid_amount_state).
  - apply addDose_guard. right. eexists. split; [reflexivity|]. simpl. lra.
  - repeat constructor. unfold key_le, time_of. simpl. lra.
  - repeat constructor.
  - reflexivity.
  - repeat constructor; discriminate.
Defined.



(** ** The states the component can reach *)

Lemma Array_mapi_from_Forall {A B : Type} (P : A -> Prop) (Q : B -> Prop)
    (f : A -> nat -> B) (l : list A) (index : nat) :
  (forall x i, P x -> Q (f x i)) -> Forall P l ->
  Forall Q (Array_mapi_from index f l).
Proof.
  intros Hf Hl. revert index.
  induction Hl as [|x l Hx _ IH]; intros index; simpl; constructor; auto.
Qed.

Lemma Array_mapi_from_sorted {A B : Type} (R : A -> A -> Prop)
    (S : B -> B -> Prop) (f : A -> nat -> B) (l : list A) (index : nat) :
  (forall x y i j, R x y -> S (f x i) (f y j)) ->
  StronglySorted R l -> StronglySorted S (Array_mapi_from index f l).
Proof.
  intros Hf Hl. revert index.
  induction Hl as [|x l Hs IH Hx]; intros index; simpl; constructor.
  - apply IH.
  - apply (Array_mapi_from_Forall (R x)); [|exact Hx].
    intros y i. apply Hf.
Qed.

(** The amounts of the doses the guard of [addDose] lets through
    are above 0. *)
Lemma accepted_positive (amount : number) :
  Num.isNaN amount || (amount [<=] Fin 0) = false ->
  Fin 0 [<] amount = true.
Proof.
  intros H. apply addDose_guard in H as [->|(x & -> & Hx)]; [reflexivity|].
  now apply ltb_Fin.
Qed.

Lemma initialDoses_positive (now : Date) :
  Forall positive_amount (initialDoses now).
Proof.
  unfold initialDoses, Array_mapi.
  apply (Array_mapi_from_Forall (fun d => snd d [>] Fin 0 = true)).
  - intros [daysAgo a] i H. exact H.
  - apply Forall_forall. intros d Hd. now apply filter_In in Hd.
Qed.

Lemma handle_positive (Date_parse : string -> Date)
    (toISOString : Date -> string) (Number_toString : number -> string)
    (st : App.State) (event : Event) :
  Forall positive_amount (App.doses st) ->
  Forall positive_amount
    (App.doses (handle Date_parse toISOString Number_toString st event)).
Proof.
  intros H. destruct event as [v|v|v|v|now|id|[|]]; cbn [handle];
    try exact H.
  - unfold App.addDose.
    destruct (Num.isNaN _ || (_ [<=] Fin 0)) eqn:G; [exact H|].
    cbn [App.doses].
    eapply Permutation_Forall; [apply Array_sort_perm|].
    apply Forall_app. split; [exact H|].
    constructor; [|constructor]. now apply accepted_positive.
  - now apply filter_Forall.
  - constructor.
Qed.

(** X16.  From the mount on, whatever the user does, every dose of the
    collection has an amount above 0: none is NaN, zero or negative. *)
Theorem amounts_stay_positive (Date_parse : string -> Date)
    (toISOString : Date -> string) (Number_toString : number -> string)
    (mounted : Date) (events : list Event) :
  Forall (fun dose => Fin 0 [<] amount dose = true)
    (App.doses
       (run Date_parse toISOString Number_toString mounted events)).
Proof.
  unfold run.
  assert (H : Forall positive_amount
                (App.doses (initialState toISOString mounted)))
    by apply initialDoses_positive.
  revert H. generalize (initialState toISOString mounted).
  induction events as [|event events IH]; intros st H; [exact H|].
  cbn [fold_left]. apply IH. now apply handle_positive.
Qed.

Lemma Int_part_le (x y : R) : x <= y -> (Int_part x <= Int_part y)%Z.
Proof.
  intros H.
  destruct (base_Int_part x) as [Hx _], (base_Int_part y) as [_ Hy].
  assert (IZR (Int_part x) < IZR (Int_part y + 1))
    by (rewrite plus_IZR; lra).
  apply lt_IZR in H0. lia.
Qed.

Lemma Int_part_0 : Int_part 0 = 0%Z.
Proof. symmetry. apply Int_part_spec. lra. Qed.

Lemma trunc_monotone (x y : R) : x <= y -> trunc x <= trunc y.
Proof.
  intros H. unfold trunc.
  destruct (Rle_dec 0 x) as [Hx|Hx], (Rle_dec 0 y) as [Hy|Hy]; try lra.
  - apply IZR_le, Int_part_le, H.
  - assert (Hn : (Int_part 0 <= Int_part y)%Z) by (apply Int_part_le; lra).
    assert (Hm : (Int_part 0 <= Int_part (- x))%Z)
      by (apply Int_part_le; lra).
    rewrite Int_part_0 in Hn, Hm. apply IZR_le in Hn, Hm. lra.
  - assert (Hn : (Int_part (- y) <= Int_part (- x))%Z)
      by (apply Int_part_le; lra).
    apply IZR_le in Hn. lra.
Qed.

Lemma TimeClip_in_range (v : R) :
  Rabs v <= 8.64e15 -> TimeClip (Fin v) = Fin (trunc v).
Proof.
  intros H. unfold TimeClip.
  destruct (Rlt_dec 8.64e15 (Rabs v)); [lra | reflexivity].
Qed.

Lemma defaultDose_time (now : Date) (n x : R) (a : number) (index : nat) :
  getTime now = Fin n -> mountable n -> 0 <= x <= 16 ->
  getTime (timestamp (defaultDose now (Fin x, a) index))
  = Fin (trunc (n - x * 24 * 60 * 60 * 1000)).
Proof.
  intros Hn Hm Hx. cbn [defaultDose timestamp new_Date getTime].
  rewrite Hn. cbn [Num.mul Num.sub]. apply TimeClip_in_range.
  unfold mountable in Hm. apply Rabs_le. lra.
Qed.

Lemma defaultDoses_earlier : StronglySorted earlier defaultDoses.
Proof.
  unfold defaultDoses.
  repeat (apply SSorted_cons;
          [|each_of_list
              ltac:(do 2 eexists;
                    split; [reflexivity|split; [reflexivity|lra]])]).
  apply SSorted_nil.
Qed.

Lemma defaultDoses_recent : Forall recent defaultDoses.
Proof.
  unfold defaultDoses.
  each_of_list ltac:(eexists; split; [reflexivity|lra]).
Qed.

Lemma initialDoses_valid (now : Date) (n : R) :
  getTime now = Fin n -> mountable n ->
  Forall valid_date (initialDoses now).
Proof.
  intros Hn Hm. unfold initialDoses, Array_mapi.
  apply (Array_mapi_from_Forall recent).
  - intros [daysAgo a] i (x & Ex & Hx). cbn [fst] in Ex. subst daysAgo.
    unfold valid_date. now rewrite (defaultDose_time now n x a i).
  - apply filter_Forall, defaultDoses_recent.
Qed.

Lemma initialDoses_sorted (now : Date) (n : R) :
  getTime now = Fin n -> mountable n ->
  StronglySorted (key_le time_of) (initialDoses now).
Proof.
  intros Hn Hm. unfold initialDoses, Array_mapi.
  apply (Array_mapi_from_sorted earlier).
  - intros [d1 a1] [d2 a2] i j (x & y & Ex & Ey & Hle & Hy & Hx).
    cbn [fst] in Ex, Ey. subst d1 d2. unfold key_le, time_of.
    rewrite (defaultDose_time now n x a1 i) by (assumption || lra).
    rewrite (defaultDose_time now n y a2 j) by (assumption || lra).
    cbn [real_of]. apply trunc_monotone. lra.
  - apply filter_sorted, defaultDoses_earlier.
Qed.

Lemma handle_in_time_order (Date_parse : string -> Date)
    (toISOString : Date -> string) (Number_toString : number -> string)
    (st : App.State) (event : Event) :
  (forall text, Num.isFinite (getTime (Date_parse text)) = true) ->
  in_time_order (App.doses st) ->
  in_time_order
    (App.doses (handle Date_parse toISOString Number_toString st event)).
Proof.
  intros Hp [Hv Hs]. destruct event as [v|v|v|v|now|id|[|]]; cbn [handle];
    try (split; assumption).
  - unfold App.addDose.
    destruct (Num.isNaN _ || (_ [<=] Fin 0)) eqn:G; [split; assumption|].
    cbn [App.doses].
    assert (Hall : Forall valid_date
                     (App.doses st
                        ++ [mkDose (Number_toString now)
                              (parseFloat (App.newDoseAmount st))
                              (App.newDoseUnit st)
                              (Date_parse (App.newDoseTime st))])).
    { apply Forall_app. split; [exact Hv|].
      constructor; [apply Hp | constructor]. }
    split.
    + eapply Permutation_Forall; [apply Array_sort_perm | exact Hall].
    + now apply Array_sort_sorted with (valid := valid_date);
        [apply byTimestamp_key|].
  - split; [now apply filter_Forall | now apply filter_sorted].
  - split; constructor.
Qed.

(** X17.  Mounted at a valid instant, and with a host that reads every
    submitted time as a valid date, the collection stays in order of
    time whatever the user does. *)
Theorem doses_stay_in_time_order (Date_parse : string -> Date)
    (toISOString : Date -> string) (Number_toString : number -> string)
    (mounted : Date) (n : R) (events : list Event) :
  (forall text, Num.isFinite (getTime (Date_parse text)) = true) ->
  getTime mounted = Fin n ->
  - 8.64e15 + 16 * 86400000 <= n <= 8.64e15 ->
  Forall valid_date
    (App.doses (run Date_parse toISOString Number_toString mounted events))
  /\ StronglySorted (key_le time_of)
       (App.doses (run Date_parse toISOString Number_toString mounted events)).
Proof.
  intros Hp Hn Hm. unfold run.
  assert (H : in_time_order (App.doses (initialState toISOString mounted))).
  { split; [now apply (initialDoses_valid mounted n)
           | now apply (initialDoses_sorted mounted n)]. }
  revert H. generalize (initialState toISOString mounted).
  induction events as [|event events IH]; intros st H; [exact H|].
  cbn [fold_left]. apply IH. now apply handle_in_time_order.
Qed.

Lemma doses_stay_in_time_order_witness :
  Forall valid_date
    (App.doses
       (run sample_Date_parse sample_toISOString sample_Number_toString
          (mkDate (Fin 0)) sample_events))
  /\ StronglySorted (key_le time_of)
       (App.doses
          (run sample_Date_parse sample_toISOString sample_Number_toString
             (mkDate (Fin 0)) sample_events)).
Proof.
  apply (doses_stay_in_time_order sample_Date_parse sample_toISOString
           sample_Number_toString (mkDate (Fin 0)) 0 sample_events).
  - reflexivity.
  - reflexivity.
  - lra.
Defined.

(** ** More on the chart series *)

Lemma Array_map_throw {A B : Type} (f : A -> result B) (l : list A)
    (message : string) :
  l <> [] -> (forall x, f x = Throw message) ->
  Array_map f l = Throw message.
Proof.
  intros Hl Hf. destruct l as [|x l]; [contradiction|].
  cbn [Array_map]. now rewrite Hf.
Qed.

(** For a collection that is not empty [generateChartData] maps its
    callback over a list of instants that is not empty either. *)
Lemma generateChartData_instants (toLocaleString : Date -> string)
    (now : number) (st : App.State) :
  App.doses st <> [] ->
  exists times : list number,
    times <> []
    /\ App.generateChartData toLocaleString now st
       = Array_map
           (fun time =>
              bind
                (calculateActiveLevel (mkDate now) (App.doses st)
                   (mkConfig (App.halfLifeHours st) (Some (new_Date time))))
                (fun level =>
                   Return
                     (App.mkPoint (toLocaleString (new_Date time)) time
                        (roundTo2 level))))
           times.
Proof.
  intros Hne. unfold App.generateChartData.
  destruct (App.doses st) as [|d ds] eqn:E; [contradiction|].
  cbv zeta. eexists. split; [|reflexivity].
  match goal with
  | |- Array_sort ?c (fold_left ?g ?s (fold_left ?f ?l [])) <> [] =>
      remember (fold_left g s (fold_left f l [])) as raw eqn:Eraw;
      assert (Hin : In (getTime (timestamp d)) raw)
  end.
  { rewrite Eraw. apply fold_Set_add_In. left.
    apply (fold_Set_add_In (fun dose => getTime (timestamp dose))).
    right. exists d. split; [now left | reflexivity]. }
  clear Eraw. intros C.
  apply (Permutation_in _ (Array_sort_perm (fun a b => a [-] b) raw)) in Hin.
  rewrite C in Hin. contradiction.
Qed.

(** X18.  With no dose the chart is empty, whatever the half-life; with
    doses, [generateChartData] throws exactly when the half-life is
    [<= 0], whatever the dates and the clock. *)
Theorem chart_fails_iff (toLocaleString : Date -> string) (now : number)
    (st : App.State) :
  (App.doses st = [] ->
   App.generateChartData toLocaleString now st = Return [])
  /\ ((exists message,
          App.generateChartData toLocaleString now st = Throw message)
      <-> App.doses st <> [] /\ App.halfLifeHours st [<=] Fin 0 = true).
Proof.
  assert (He : App.doses st = [] ->
               App.generateChartData toLocaleString now st = Return []).
  { intros E. unfold App.generateChartData. now rewrite E. }
  split; [exact He|].
  destruct (App.doses st) as [|d ds] eqn:E.
  - rewrite He by reflexivity.
    split; [intros [m H]; discriminate H | intros [H _]; contradiction].
  - destruct (generateChartData_instants toLocaleString now st)
      as (times & Hne & ->); [rewrite E; discriminate|].
    rewrite E.
    destruct (App.halfLifeHours st [<=] Fin 0) eqn:G.
    + split; [intros _; split; [discriminate | reflexivity]|].
      intros _. eexists. apply Array_map_throw; [exact Hne|].
      intros time. unfold calculateActiveLevel. cbn [halfLifeHours].
      rewrite G. reflexivity.
    + split; [|intros [_ H]; discriminate H].
      intros [m H]. rewrite (Array_map_total _
        (fun time =>
           App.mkPoint (toLocaleString (new_Date time)) time
             (roundTo2
                (fold_left
                   (remaining (App.halfLifeHours st)
                      (getTime (new_Date time))) (d :: ds) (Fin 0))))) in H.
      * discriminate H.
      * intros time _. now rewrite calculateActiveLevel_valid.
Qed.


